(** * K-means clustering (k_means_clustering.py): a shallow embedding

    The numeric core of the script is embedded as executable Rocq functions:
    [get_centroids], [find_closest_centroids], [run_k_means] and
    [choose_random_centroids].

    - A NumPy [float64] is a primitive binary64 float ([PrimFloat.float]), so
      that [0/0] really is [nan] and [sqrt 2 * sqrt 2] really is not [2].
    - A 2-D [ndarray] of shape (N, D) is the list of its N rows.
    - A cluster id is an integer [Z].  The script stores ids in a [float64]
      array and reads them back through [int(...)]; ids are array indices, so
      the round trip through [float64] is exact and is left out.
    - A Python exception is a value [Raise e] of the [result] monad.
    - The two [print] calls of [run_k_means] only write to stdout and are
      left out. *)

From Stdlib Require Import ZArith Lia.
From Stdlib Require Import Floats.PrimFloat Floats.SpecFloat Floats.FloatOps Floats.FloatAxioms.
From stdpp Require Import base list.

#[local] Open Scope Z_scope.
#[local] Open Scope nat_scope.

Abbreviation vector := (list float).
Abbreviation matrix := (list (list float)).

(** ** Exceptions *)

Inductive exn : Type :=
| ValueError
| IndexError.

Inductive result (A : Type) : Type :=
| Ok (a : A)
| Raise (e : exn).

Arguments Ok {A} a.
Arguments Raise {A} e.

#[global] Instance result_ret : MRet result := @Ok.
#[global] Instance result_bind : MBind result :=
  fun A B f m => match m with Ok a => f a | Raise e => Raise e end.

Definition raises {A} (r : result A) : Prop := exists e, r = Raise e.

(** ** Python and NumPy primitives *)

(** [l[i]] for a non-negative index. *)
Definition getitem {A} (l : list A) (i : nat) : result A :=
  match l !! i with
  | Some x => Ok x
  | None => Raise IndexError
  end.

(** The position that [a[i]] denotes in an array of length [len]: Python
    counts a negative index from the end. *)
Definition getindex (len : nat) (i : Z) : result nat :=
  if bool_decide (0 <= i < Z.of_nat len)%Z then Ok (Z.to_nat i)
  else if bool_decide (- Z.of_nat len <= i < 0)%Z then Ok (Z.to_nat (i + Z.of_nat len))
  else Raise IndexError.

(** [np.zeros(n)]: a negative dimension is a [ValueError]. *)
Definition np_zeros (n : Z) : result vector :=
  if bool_decide (n < 0)%Z then Raise ValueError
  else Ok (replicate (Z.to_nat n) 0%float).

(** [np.zeros((n, d))]. *)
Definition np_zeros2 (n : Z) (d : nat) : result matrix :=
  if bool_decide (n < 0)%Z then Raise ValueError
  else Ok (replicate (Z.to_nat n) (replicate d 0%float)).

(** [a.max()]: the reduction has no identity, an empty array is a
    [ValueError]. *)
Definition ndarray_max (a : list Z) : result Z :=
  match a with
  | [] => Raise ValueError
  | x :: a' => Ok (fold_left Z.max a' x)
  end.

(** [for i, x in enumerate(l): s = body(s, i, x)], counting from [i]. *)
Fixpoint for_enumerate {A St : Type} (body : St -> nat -> A -> result St)
    (i : nat) (l : list A) (s : St) : result St :=
  match l with
  | [] => Ok s
  | x :: l' => s' ← body s i x; for_enumerate body (S i) l' s'
  end.

(** [for i in range(start, start + n): s = body(s, i)]. *)
Fixpoint for_range {St : Type} (body : St -> nat -> result St)
    (start n : nat) (s : St) : result St :=
  match n with
  | O => Ok s
  | S n' => s' ← body s start; for_range body (S start) n' s'
  end.

(** [x op y] on two rows under NumPy's broadcasting rule: equal lengths go
    element by element, a row of length 1 is stretched, anything else is a
    [ValueError]. *)
Definition broadcast (op : float -> float -> float) (x y : vector) : result vector :=
  if bool_decide (length x = length y) then Ok (zip_with op x y)
  else match x, y with
       | [a], _ => Ok (map (op a) y)
       | _, [b] => Ok (map (fun a => op a b) x)
       | _, _ => Raise ValueError
       end.

(** [np.linalg.norm(v)] of one row: the square root of the sum of the
    squares.  The sum runs left to right, which is NumPy's order for rows of
    up to two coordinates (the script's data is 2-D). *)
Definition norm (v : vector) : float :=
  sqrt (fold_left add (map (fun x => x * x)%float v) 0%float).

(** The scan of [np.argmin] over [float64]: a new minimum is taken when
    [!(x >= mp)], and the first [nan] met ends the scan. *)
Fixpoint argmin_scan (l : vector) (i : nat) (mp : float) (min_ind : nat) : nat :=
  match l with
  | [] => min_ind
  | x :: l' =>
      if negb (mp <=? x)%float
      then (if is_nan x then i else argmin_scan l' (S i) x i)
      else argmin_scan l' (S i) mp min_ind
  end.

(** [np.argmin(a)]: an empty sequence is a [ValueError]. *)
Definition argmin (a : vector) : result nat :=
  match a with
  | [] => Raise ValueError
  | mp :: a' => if is_nan mp then Ok 0 else Ok (argmin_scan a' 1 mp 0)
  end.

(** ** get_centroids *)

(** The body of the first loop: [counts[int(cluster)] += 1] and
    [centroids[int(cluster)] += samples[i]].  The rows of [samples] belong to
    one array and so have the length of the rows of [centroids]. *)
Definition accumulate (samples : matrix) (st : vector * matrix) (i : nat) (cluster : Z)
    : result (vector * matrix) :=
  let '(counts, centroids) := st in
  j ← getindex (length counts) cluster;
  let counts := alter (fun n => n + 1)%float j counts in
  j' ← getindex (length centroids) cluster;
  sample ← getitem samples i;
  Ok (counts, alter (fun row => zip_with add row sample) j' centroids).

(** The body of the second loop: [centroid /= counts[i]] divides row [i] in
    place.  [centroid] is the row as the loop meets it: the rows before [i]
    are divided already, row [i] is not yet. *)
Definition divide (counts : vector) (centroids : matrix) (i : nat) (centroid : vector)
    : result matrix :=
  n ← getitem counts i;
  Ok (<[i := map (fun x => x / n)%float centroid]> centroids).

Definition get_centroids (samples : matrix) (clusters : list Z) : result matrix :=
  m ← ndarray_max clusters;
  let K := (m + 1)%Z in
  counts ← np_zeros K;
  sample0 ← getitem samples 0;
  centroids ← np_zeros2 K (length sample0);
  '(counts, centroids) ← for_enumerate (accumulate samples) 0 clusters (counts, centroids);
  for_enumerate (divide counts) 0 centroids centroids.

(** ** find_closest_centroids *)

(** [np.linalg.norm(sample - centroids, axis=-1)**2]: one squared distance per
    centroid. *)
Definition sq_distances (sample : vector) (centroids : matrix) : result vector :=
  diffs ← mapM (broadcast sub sample) centroids;
  Ok (map (fun v => let n := norm v in n * n)%float diffs).

Definition closest (centroids : matrix) (sample : vector) : result Z :=
  d ← sq_distances sample centroids;
  j ← argmin d;
  Ok (Z.of_nat j).

Definition find_closest_centroids (samples centroids : matrix) : result (list Z) :=
  let cluster_ids := replicate (length samples) 0%Z in
  for_enumerate
    (fun cluster_ids i sample => c ← closest centroids sample; Ok (<[i := c]> cluster_ids))
    0 samples cluster_ids.

(** ** run_k_means *)

Record loop_state : Type := LoopState {
  centroid_history : list matrix;
  current_centroids : matrix;
  clusters : list Z
}.

Definition iteration (samples : matrix) (st : loop_state) (i : nat) : result loop_state :=
  let centroid_history := centroid_history st ++ [current_centroids st] in
  clusters ← find_closest_centroids samples (current_centroids st);
  current_centroids ← get_centroids samples clusters;
  Ok (LoopState centroid_history current_centroids clusters).

(** The state when the loop ends; [range(n_iter)] is empty for [n_iter <= 0]. *)
Definition run_k_means_loop (samples initial_centroids : matrix) (n_iter : Z)
    : result loop_state :=
  for_range (iteration samples) 0 (Z.to_nat n_iter)
    (LoopState [] initial_centroids []).

Definition run_k_means (samples initial_centroids : matrix) (n_iter : Z)
    : result (list Z * list matrix) :=
  st ← run_k_means_loop samples initial_centroids n_iter;
  Ok (clusters st, centroid_history st).

(** ** choose_random_centroids *)

(** [np.random.permutation] is the argument [permutation]: the draw of the
    generator, as a function of the array it shuffles. *)
Definition choose_random_centroids (permutation : matrix -> matrix)
    (samples : matrix) (K : Z) : result matrix :=
  sample0 ← getitem samples 0;
  centroids ← np_zeros2 K (length sample0);
  let b := permutation samples in
  for_range (fun centroids i => row ← getitem b i; Ok (<[i := row]> centroids))
    0 (Z.to_nat K) centroids.

(** ** The words of the specification *)

(** The points whose assignment equals [c], in the order of the point set. *)
Definition cluster_points (samples : matrix) (clusters : list Z) (c : Z) : matrix :=
  (filter (fun p => p.2 = c) (zip samples clusters)).*1.

(** The number of the points, as the [float64] that counting them by ones
    gives. *)
Definition count (points : matrix) : float :=
  fold_left (fun n _ => n + 1)%float points 0%float.

(** The coordinate-wise sum of the points, in dimension [D]. *)
Definition total (D : nat) (points : matrix) : vector :=
  fold_left (zip_with add) points (replicate D 0%float).

(** The coordinate-wise arithmetic mean of the points. *)
Definition mean (D : nat) (points : matrix) : vector :=
  map (fun x => x / count points)%float (total D points).

(** Some cluster id in [0, k) has no assigned point. *)
Definition has_empty_cluster (k : Z) (clusters : list Z) : Prop :=
  exists c, (0 <= c < k)%Z /\ c ∉ clusters.

(** A point set and a centroid set on which an iteration cannot fail: both
    non-empty, all rows of dimension [D]. *)
Definition well_formed (D : nat) (samples centroids : matrix) : Prop :=
  samples <> [] /\ Forall (fun s => length s = D) samples /\
  centroids <> [] /\ Forall (fun c => length c = D) centroids.

(** ** Notions used by the further properties *)

(** Some coordinate of the row is [nan]. *)
Definition has_nan (v : vector) : Prop := exists x, x ∈ v /\ is_nan x = true.

(** The non-negative position a cluster id denotes in an array of length
    [K]: a negative id counts from the end. *)
Definition wrap (K : Z) (c : Z) : Z :=
  if bool_decide (c < 0)%Z then (c + K)%Z else c.

(** One round of the algorithm takes the centroid set [c] to [c']. *)
Definition lloyd_step (samples c c' : matrix) : Prop :=
  exists a, find_closest_centroids samples c = Ok a /\ get_centroids samples a = Ok c'.

(** The point set and the initial centroids on which a run of one iteration
    or more fails, for dimensions [D] and [D']. *)
Definition invalid_run (D D' : nat) (samples centroids : matrix) : Prop :=
  samples = [] \/ centroids = [] \/ (D <> D' /\ D <> 1 /\ D' <> 1).

(** ** The worked example of the specification *)

Definition example_samples : matrix := [[1; 1]; [1; 2]; [9; 9]; [9; 8]]%float.
Definition example_centroids : matrix := [[0; 0]; [10; 10]]%float.

(** Three initial centroids of which the middle one attracts no point. *)
Definition example_centroids3 : matrix := [[0; 0]; [5; 5]; [10; 10]]%float.

(** * Proofs *)

(** ** The embedding at work *)

Example find_closest_centroids_example :
  find_closest_centroids example_samples example_centroids = Ok [0; 0; 1; 1]%Z.
Proof. vm_compute. reflexivity. Qed.

(** The squared norm goes through a square root: (1,1) is at squared
    distance 2.0000000000000004 from the origin. *)
Example sq_distances_rounds :
  sq_distances [1; 1]%float [[0; 0]]%float = Ok [0x1.0000000000001p+1%float].
Proof. vm_compute. reflexivity. Qed.

Example argmin_first_nan : argmin [3; nan; 1; nan]%float = Ok 1.
Proof. vm_compute. reflexivity. Qed.

Example count_example : count example_samples = 4%float.
Proof. vm_compute. reflexivity. Qed.

(** A centroid that attracts no point becomes [nan], then attracts every
    point, and the number of centroids goes from 3 to 2 to 1. *)
Example run_k_means_shrinks :
  run_k_means example_samples example_centroids3 4
  = Ok ([0; 0; 0; 0]%Z,
        [example_centroids3;
         [[1; 1.5]; [nan; nan]; [9; 8.5]];
         [[nan; nan]; [5; 5]];
         [[5; 5]]]%float).
Proof. vm_compute. reflexivity. Qed.

Example choose_random_centroids_example :
  choose_random_centroids reverse example_samples 3
  = Ok [[9; 8]; [9; 9]; [1; 2]]%float.
Proof. vm_compute. reflexivity. Qed.

(** ** The [result] monad *)

Lemma bind_Ok {A B} (m : result A) (f : A -> result B) (b : B) :
  m ≫= f = Ok b <-> exists a, m = Ok a /\ f a = Ok b.
Proof.
  destruct m as [a|e]; simpl; split.
  - intros H. exists a. auto.
  - intros (a' & [= <-] & H). exact H.
  - discriminate.
  - intros (a' & [=] & _).
Qed.

Lemma bind_ret {A B} (a : A) (f : A -> result B) : Ok a ≫= f = f a.
Proof. reflexivity. Qed.

Ltac inv_bind H :=
  let a := fresh "a" in
  let Ha := fresh "Ha" in
  apply bind_Ok in H; destruct H as (a & Ha & H).

(** ** Loops *)

Lemma for_enumerate_cons {A St} (body : St -> nat -> A -> result St) x l i s :
  for_enumerate body i (x :: l) s = s' ← body s i x; for_enumerate body (S i) l s'.
Proof. reflexivity. Qed.

Lemma for_range_S {St} (body : St -> nat -> result St) start n s :
  for_range body start (S n) s = s' ← body s start; for_range body (S start) n s'.
Proof. reflexivity. Qed.

Lemma for_range_add {St} (body : St -> nat -> result St) start n m s :
  for_range body start (n + m) s =
  s' ← for_range body start n s; for_range body (start + n) m s'.
Proof.
  revert start s. induction n as [|n IH]; intros start s; simpl.
  - by rewrite Nat.add_0_r.
  - destruct (body s start) as [s'|e]; simpl; [|done].
    rewrite IH. by replace (S start + n) with (start + S n) by lia.
Qed.

Lemma for_range_snoc {St} (body : St -> nat -> result St) start n s :
  for_range body start (S n) s =
  s' ← for_range body start n s; body s' (start + n).
Proof.
  replace (S n) with (n + 1) by lia. rewrite for_range_add.
  destruct (for_range body start n s) as [s'|e]; simpl; [|done].
  by destruct (body s' (start + n)).
Qed.

Lemma mapM_Ok {A B} (f : A -> result B) l k :
  mapM f l = Ok k <-> Forall2 (fun x y => f x = Ok y) l k.
Proof.
  revert k. induction l as [|x l IH]; intros k; simpl.
  - split; [intros [= <-]; constructor | by inversion 1].
  - split.
    + intros H. inv_bind H. inv_bind H. injection H as <-.
      constructor; [done | by apply IH].
    + inversion 1 as [|? y ? k' Hx Hl]; subst.
      rewrite Hx. simpl. apply IH in Hl. by rewrite Hl.
Qed.

(** Filling an array of zeros slot by slot is a monadic map. *)
Lemma for_enumerate_fill {A B} (f : A -> result B) (d : B) (l : list A) (pre : list B) :
  for_enumerate (fun (ids : list B) i x => c ← f x; Ok (<[i := c]> ids))
    (length pre) l (pre ++ replicate (length l) d)
  = ys ← mapM f l; Ok (pre ++ ys).
Proof.
  revert pre. induction l as [|x l IH]; intros pre; simpl.
  - reflexivity.
  - destruct (f x) as [c|e]; simpl; [|done].
    rewrite insert_app_r_alt by lia. rewrite Nat.sub_diag. simpl.
    replace (pre ++ c :: replicate (length l) d)
      with ((pre ++ [c]) ++ replicate (length l) d) by (by rewrite <- app_assoc).
    replace (S (length pre)) with (length (pre ++ [c]))
      by (rewrite length_app; simpl; lia).
    rewrite IH.
    destruct (mapM f l); simpl; [|done]. by rewrite <- app_assoc.
Qed.

Lemma find_closest_centroids_mapM samples centroids :
  find_closest_centroids samples centroids = mapM (closest centroids) samples.
Proof.
  unfold find_closest_centroids.
  pose proof (for_enumerate_fill (closest centroids) 0%Z samples []) as H.
  simpl in H. rewrite H. by destruct (mapM _ _).
Qed.

(** ** The order of [float64] *)

(** The comparison of the specification floats is a lexicographic order on
    sign, exponent and mantissa; these two facts carry over to the primitive
    floats through [leb_spec] and [eqb_spec]. *)

Lemma SFleb_refl x : SFeqb x x = true -> SFleb x x = true.
Proof. unfold SFeqb, SFleb. by destruct (SFcompare x x) as [[]|]. Qed.

Lemma SFleb_lt_trans a x y :
  SFleb a y = true -> SFleb a x = false -> SFeqb x x = true -> SFleb x y = true.
Proof.
  unfold SFleb, SFeqb, SFcompare.
  destruct a as [sa|sa| |sa ma ea], x as [sx|sx| |sx mx ex], y as [sy|sy| |sy my ey];
    try destruct sa; try destruct sx; try destruct sy; try done;
    change (Pos.compare_cont Eq) with Pos.compare;
    repeat match goal with
      | |- context [Z.compare ?u ?v] => destruct (Z.compare_spec u v)
      | |- context [Pos.compare ?u ?v] => destruct (Pos.compare_spec u v)
      end; simpl; try done; intros; lia.
Qed.

Lemma is_nan_false x : is_nan x = false -> (x =? x)%float = true.
Proof. unfold is_nan. by destruct (x =? x)%float. Qed.

Lemma leb_refl x : is_nan x = false -> (x <=? x)%float = true.
Proof.
  intros H%is_nan_false. rewrite FloatAxioms.eqb_spec in H. rewrite FloatAxioms.leb_spec.
  by apply SFleb_refl.
Qed.

Lemma leb_lt_trans a x y :
  (a <=? y)%float = true -> (a <=? x)%float = false -> is_nan x = false ->
  (x <=? y)%float = true.
Proof.
  rewrite !FloatAxioms.leb_spec. intros Hay Hax Hx%is_nan_false. rewrite FloatAxioms.eqb_spec in Hx.
  by apply (SFleb_lt_trans (Prim2SF a)).
Qed.

(** ** argmin *)

Lemma argmin_scan_spec l : forall pre mp min_ind,
  pre !! min_ind = Some mp ->
  (forall y, y ∈ pre -> (mp <=? y)%float = true) ->
  (forall j, pre !! j = Some mp -> min_ind <= j) ->
  exists x, (pre ++ l) !! argmin_scan l (length pre) mp min_ind = Some x /\
    (forall j, (pre ++ l) !! j = Some x -> argmin_scan l (length pre) mp min_ind <= j) /\
    (is_nan x = true \/ forall y, y ∈ pre ++ l -> (x <=? y)%float = true).
Proof.
  induction l as [|x l IH]; intros pre mp min_ind Hmp Hle Hfirst; simpl.
  - rewrite app_nil_r. eauto.
  - assert (Hnew : (mp <=? x)%float = false -> forall j,
        (pre ++ x :: l) !! j = Some x -> length pre <= j).
    { intros Hx j Hj. destruct (decide (j < length pre)) as [Hlt|]; [|lia].
      rewrite lookup_app_l in Hj by done.
      apply list_elem_of_lookup_2, Hle in Hj. congruence. }
    assert (Hlen : S (length pre) = length (pre ++ [x]))
      by (rewrite length_app; simpl; lia).
    assert (Happ : pre ++ x :: l = (pre ++ [x]) ++ l) by (by rewrite <- app_assoc).
    destruct (mp <=? x)%float eqn:Hx; simpl.
    + rewrite Hlen, Happ. apply IH.
      * by apply lookup_app_l_Some.
      * intros y [Hy | ->%list_elem_of_singleton]%elem_of_app; auto.
      * intros j Hj. destruct (decide (j < length pre)) as [Hlt|].
        -- rewrite lookup_app_l in Hj by done. auto.
        -- apply lookup_lt_Some in Hmp. lia.
    + destruct (is_nan x) eqn:Hnan.
      * exists x. split; [|split]; auto.
        by rewrite lookup_app_r, Nat.sub_diag by lia.
      * rewrite Hlen, Happ. apply IH.
        -- rewrite lookup_app_r, Nat.sub_diag by lia. done.
        -- intros y [Hy | ->%list_elem_of_singleton]%elem_of_app.
           ++ eapply leb_lt_trans; eauto.
           ++ by apply leb_refl.
        -- intros j Hj. apply (Hnew eq_refl j).
           rewrite Happ. by apply lookup_app_l_Some.
Qed.

Lemma argmin_spec a r :
  argmin a = Ok r ->
  exists x, a !! r = Some x /\
    (forall j, a !! j = Some x -> r <= j) /\
    (is_nan x = true \/ forall y, y ∈ a -> (x <=? y)%float = true).
Proof.
  destruct a as [|mp a']; [done|]. simpl.
  destruct (is_nan mp) eqn:Hnan; intros [= <-].
  - exists mp. split; [done|]. split; [intros; lia | by left].
  - apply (argmin_scan_spec a' [mp] mp 0).
    + done.
    + intros y ->%list_elem_of_singleton. by apply leb_refl.
    + intros; lia.
Qed.

Lemma argmin_total a : a <> [] -> exists r, argmin a = Ok r.
Proof. destruct a as [|mp a']; [done|]. simpl. destruct (is_nan mp); eauto. Qed.

(** ** find_closest_centroids *)

Lemma broadcast_same op x y :
  length x = length y -> broadcast op x y = Ok (zip_with op x y).
Proof. intros H. unfold broadcast. by rewrite bool_decide_eq_true_2. Qed.

Lemma sq_distances_total sample centroids :
  Forall (fun c => length c = length sample) centroids ->
  exists d, sq_distances sample centroids = Ok d /\ length d = length centroids.
Proof.
  intros Hc. unfold sq_distances.
  assert (exists diffs, mapM (broadcast sub sample) centroids = Ok diffs /\
            length diffs = length centroids) as (diffs & -> & Hlen).
  { induction Hc as [|c cs Hlen _ (diffs & IH & Hd)]; simpl.
    - by exists [].
    - rewrite broadcast_same, IH by done. simpl. eexists. split; [done|].
      simpl. by rewrite Hd. }
  simpl. eexists. split; [done|]. by rewrite length_map.
Qed.

Lemma closest_total centroids sample :
  centroids <> [] ->
  Forall (fun c => length c = length sample) centroids ->
  exists c, closest centroids sample = Ok c /\ (0 <= c < Z.of_nat (length centroids))%Z.
Proof.
  intros Hne Hc. unfold closest.
  destruct (sq_distances_total sample centroids Hc) as (d & -> & Hlen). simpl.
  destruct (argmin_total d) as (r & Hr).
  { intros ->. by destruct centroids. }
  rewrite Hr. simpl. eexists. split; [done|].
  apply argmin_spec in Hr as (x & Hx%lookup_lt_Some & _). lia.
Qed.

Lemma find_closest_centroids_total (samples centroids : matrix) :
  centroids <> [] ->
  Forall (fun s => Forall (fun c => length c = length s) centroids) samples ->
  exists ids,
    find_closest_centroids samples centroids = Ok ids /\
    length ids = length samples /\
    Forall (fun c => 0 <= c < Z.of_nat (length centroids))%Z ids.
Proof.
  intros Hne Hs. rewrite find_closest_centroids_mapM.
  induction Hs as [|s samples Hc _ (ids & IH & Hids & Hrange)]; simpl.
  - by exists [].
  - destruct (closest_total centroids s Hne Hc) as (c & -> & Hrc).
    rewrite IH. simpl. eexists. split; [done|]. split.
    + simpl. by rewrite Hids.
    + by constructor.
Qed.

Lemma same_dimension D (samples centroids : matrix) :
  Forall (fun s => length s = D) samples ->
  Forall (fun c => length c = D) centroids ->
  Forall (fun s => Forall (fun c => length c = length s) centroids) samples.
Proof.
  intros Hs Hc. eapply Forall_impl; [exact Hs|]. simpl. intros s Hlen.
  eapply Forall_impl; [exact Hc|]. simpl. congruence.
Qed.

(** C8: given a non-empty centroid set whose rows have the dimension D of the
    points, [find_closest_centroids] returns one cluster id per point, N in
    all, and each id lies in [0, K). *)
Theorem find_closest_centroids_range (D : nat) (samples centroids : matrix) :
  centroids <> [] ->
  Forall (fun s => length s = D) samples ->
  Forall (fun c => length c = D) centroids ->
  exists ids,
    find_closest_centroids samples centroids = Ok ids /\
    length ids = length samples /\
    Forall (fun c => 0 <= c < Z.of_nat (length centroids))%Z ids.
Proof.
  intros Hne Hs Hc. apply find_closest_centroids_total; [done|].
  by apply (same_dimension D).
Qed.

Lemma find_closest_centroids_range_witness :
  exists ids,
    find_closest_centroids [[1; 1]; [1; 2]; [9; 9]; [9; 8]]%float [[0; 0]; [10; 10]]%float
      = Ok ids /\
    length ids = 4 /\ Forall (fun c => 0 <= c < 2)%Z ids.
Proof.
  apply (find_closest_centroids_range 2).
  - done.
  - repeat constructor.
  - repeat constructor.
Defined.

(** A point at the same squared distance from two centroids goes to the
    first of them. *)
Lemma closest_equidistant sample c0 c1 d :
  sq_distances sample [c0; c1] = Ok [d; d] -> closest [c0; c1] sample = Ok 0%Z.
Proof.
  intros H. unfold closest. rewrite H. simpl.
  destruct (is_nan d) eqn:Hnan; [done|]. by rewrite leb_refl.
Qed.

(** C6: [find_closest_centroids] is a function of its two arguments.  The id
    it gives a point is the lowest index among all the centroids that lie at
    the same squared distance as the chosen one, and that distance is a
    minimum (or the first [nan]); a point at one distance from centroids 0
    and 1 gets id 0. *)
Theorem find_closest_centroids_ties (samples centroids : matrix) (ids : list Z) :
  find_closest_centroids samples centroids = Ok ids ->
  (forall samples' centroids', samples' = samples -> centroids' = centroids ->
     find_closest_centroids samples' centroids' = Ok ids) /\
  (forall i sample c, samples !! i = Some sample -> ids !! i = Some c ->
     exists d x,
       sq_distances sample centroids = Ok d /\
       (0 <= c)%Z /\ d !! Z.to_nat c = Some x /\
       (forall j, d !! j = Some x -> (c <= Z.of_nat j)%Z) /\
       (is_nan x = true \/ forall y, y ∈ d -> (x <=? y)%float = true)) /\
  (forall sample c0 c1 d, sq_distances sample [c0; c1] = Ok [d; d] ->
     find_closest_centroids [sample] [c0; c1] = Ok [0%Z]).
Proof.
  intros Hrun. split; [by intros ? ? -> ->|]. split.
  - intros i sample c Hs Hc.
    rewrite find_closest_centroids_mapM in Hrun. apply mapM_Ok in Hrun.
    pose proof (Forall2_lookup_lr _ _ _ _ _ _ Hrun Hs Hc) as Hcl.
    unfold closest in Hcl. inv_bind Hcl. rename a into d. inv_bind Hcl.
    rename a into r. injection Hcl as <-.
    apply argmin_spec in Ha0 as (x & Hx & Hfirst & Hmin).
    exists d, x. rewrite Nat2Z.id.
    split; [done|]. split; [lia|]. split; [done|]. split; [|done].
    intros j Hj. apply Hfirst in Hj. lia.
  - intros sample c0 c1 d Hd. rewrite find_closest_centroids_mapM. simpl.
    by rewrite (closest_equidistant _ _ _ d).
Qed.

Lemma find_closest_centroids_ties_witness :
  exists d x,
    sq_distances [1; 1]%float [[5; 5]; [0; 2]; [2; 0]]%float = Ok d /\
    (0 <= 1)%Z /\ d !! Z.to_nat 1 = Some x /\
    (forall j, d !! j = Some x -> (1 <= Z.of_nat j)%Z) /\
    (is_nan x = true \/ forall y, y ∈ d -> (x <=? y)%float = true).
Proof.
  apply (find_closest_centroids_ties [[1; 1]]%float [[5; 5]; [0; 2]; [2; 0]]%float
           [1%Z] eq_refl) with (i := 0); reflexivity.
Defined.

(** ** get_centroids *)

Lemma getindex_in_range len c :
  (0 <= c < Z.of_nat len)%Z -> getindex len c = Ok (Z.to_nat c).
Proof. intros H. unfold getindex. by rewrite bool_decide_eq_true_2. Qed.

Lemma getitem_lookup {A} (l : list A) i x : l !! i = Some x -> getitem l i = Ok x.
Proof. unfold getitem. by intros ->. Qed.

Lemma cluster_points_nil_r samples c : cluster_points samples [] c = [].
Proof. unfold cluster_points. by rewrite zip_with_nil_r. Qed.

Lemma cluster_points_cons s samples x clusters c :
  cluster_points (s :: samples) (x :: clusters) c =
  if decide (x = c) then s :: cluster_points samples clusters c
  else cluster_points samples clusters c.
Proof.
  unfold cluster_points. simpl. rewrite filter_cons. simpl.
  by destruct (decide (x = c)).
Qed.

Lemma accumulate_in_range samples counts centroids i c s :
  (0 <= c < Z.of_nat (length counts))%Z -> length centroids = length counts ->
  samples !! i = Some s ->
  accumulate samples (counts, centroids) i c =
  Ok (alter (fun n => n + 1)%float (Z.to_nat c) counts,
      alter (fun row => zip_with add row s) (Z.to_nat c) centroids).
Proof.
  intros Hc Hlen Hs. unfold accumulate.
  rewrite Hlen, getindex_in_range by done. simpl.
  by rewrite (getitem_lookup _ _ _ Hs).
Qed.

(** The first loop scatters: slot [j] of both arrays folds over exactly the
    points of cluster [j]. *)
Lemma accumulate_loop samples (K : nat) clusters : forall i counts centroids,
  length counts = K -> length centroids = K ->
  Forall (fun c => 0 <= c < Z.of_nat K)%Z clusters ->
  i + length clusters <= length samples ->
  exists counts' centroids',
    for_enumerate (accumulate samples) i clusters (counts, centroids)
      = Ok (counts', centroids') /\
    length counts' = K /\ length centroids' = K /\
    (forall j n, counts !! j = Some n ->
       counts' !! j = Some (fold_left (fun n _ => n + 1)%float
         (cluster_points (drop i samples) clusters (Z.of_nat j)) n)) /\
    (forall j row, centroids !! j = Some row ->
       centroids' !! j = Some (fold_left (zip_with add)
         (cluster_points (drop i samples) clusters (Z.of_nat j)) row)).
Proof.
  induction clusters as [|c clusters IH]; intros i counts centroids Hn Hc Hr Hi.
  - exists counts, centroids. repeat split; try done.
    + intros j n Hj. by rewrite cluster_points_nil_r.
    + intros j row Hj. by rewrite cluster_points_nil_r.
  - apply Forall_cons in Hr as [Hc0 Hr]. simpl in Hi.
    destruct (lookup_lt_is_Some_2 samples i) as [s Hs]; [lia|].
    rewrite for_enumerate_cons, (accumulate_in_range _ _ _ _ _ s) by (done || lia).
    simpl.
    destruct (IH (S i) (alter (fun n => n + 1)%float (Z.to_nat c) counts)
                (alter (fun row => zip_with add row s) (Z.to_nat c) centroids))
      as (counts' & centroids' & -> & Hn' & Hc' & Hcnt & Hsum);
      [by rewrite length_alter | by rewrite length_alter | done | lia |].
    exists counts', centroids'. repeat split; try done.
    + intros j n Hj. rewrite (drop_S _ _ _ Hs), cluster_points_cons.
      destruct (decide (c = Z.of_nat j)) as [->|Hne].
      * apply Hcnt. rewrite Nat2Z.id, list_lookup_alter_eq, Hj. done.
      * apply Hcnt. rewrite list_lookup_alter_ne by lia. done.
    + intros j row Hj. rewrite (drop_S _ _ _ Hs), cluster_points_cons.
      destruct (decide (c = Z.of_nat j)) as [->|Hne].
      * apply Hsum. rewrite Nat2Z.id, list_lookup_alter_eq, Hj. done.
      * apply Hsum. rewrite list_lookup_alter_ne by lia. done.
Qed.

(** The second loop divides every row by its count. *)
Lemma divide_loop counts rows : forall done_rows,
  length done_rows + length rows <= length counts ->
  for_enumerate (divide counts) (length done_rows) rows (done_rows ++ rows)
  = Ok (done_rows ++
        zip_with (fun row n => map (fun x => x / n)%float row) rows
          (drop (length done_rows) counts)).
Proof.
  induction rows as [|row rows IH]; intros done_rows Hlen.
  - done.
  - simpl in Hlen.
    destruct (lookup_lt_is_Some_2 counts (length done_rows)) as [n Hn]; [lia|].
    rewrite for_enumerate_cons. unfold divide at 2.
    rewrite (getitem_lookup _ _ _ Hn). simpl.
    rewrite insert_app_r_alt, Nat.sub_diag by lia. simpl.
    rewrite (drop_S _ _ _ Hn). simpl.
    set (r := map (fun x => x / n)%float row).
    replace (done_rows ++ r :: rows) with ((done_rows ++ [r]) ++ rows)
      by (by rewrite <- app_assoc).
    replace (S (length done_rows)) with (length (done_rows ++ [r]))
      by (rewrite length_app; simpl; lia).
    rewrite IH by (rewrite length_app; simpl; lia).
    by rewrite <- app_assoc.
Qed.

Lemma fold_left_max_spec l : forall x,
  (x <= fold_left Z.max l x)%Z /\
  Forall (fun y => y <= fold_left Z.max l x)%Z l /\
  fold_left Z.max l x ∈ x :: l.
Proof.
  induction l as [|y l IH]; intros x; simpl.
  - repeat split; [lia | constructor | apply list_elem_of_here].
  - destruct (IH (Z.max x y)) as (Hx & Hl & Hin). repeat split.
    + lia.
    + constructor; [lia | done].
    + apply elem_of_cons in Hin as [Hm | Hin].
      * rewrite Hm. destruct (Z.max_spec x y) as [[_ ->] | [_ ->]].
        -- apply list_elem_of_further, list_elem_of_here.
        -- apply list_elem_of_here.
      * by do 2 apply list_elem_of_further.
Qed.

Lemma ndarray_max_spec clusters :
  clusters <> [] ->
  exists m, ndarray_max clusters = Ok m /\
    Forall (fun c => c <= m)%Z clusters /\ m ∈ clusters.
Proof.
  destruct clusters as [|x l]; [done|]. intros _.
  destruct (fold_left_max_spec l x) as (Hx & Hl & Hin).
  exists (fold_left Z.max l x). repeat split; [by constructor | done].
Qed.

(** What [get_centroids] returns on an assignment of non-negative ids that
    is no longer than the point set: [max + 1] rows, and row [j] is the mean
    of the points of cluster [j]. *)
Lemma get_centroids_spec samples clusters :
  clusters <> [] ->
  Forall (fun c => 0 <= c)%Z clusters ->
  length clusters <= length samples ->
  exists m sample0 R,
    ndarray_max clusters = Ok m /\
    samples !! 0 = Some sample0 /\
    get_centroids samples clusters = Ok R /\
    length R = Z.to_nat (m + 1) /\
    forall j, j < Z.to_nat (m + 1) ->
      R !! j = Some (mean (length sample0) (cluster_points samples clusters (Z.of_nat j))).
Proof.
  intros Hne Hpos Hlen.
  destruct (ndarray_max_spec clusters Hne) as (m & Hmax & Hle & Hin).
  assert (0 <= m)%Z as Hm.
  { rewrite Forall_forall in Hpos. by apply Hpos. }
  destruct (lookup_lt_is_Some_2 samples 0) as [sample0 Hs0].
  { destruct clusters; [done | simpl in Hlen; lia]. }
  set (K := Z.to_nat (m + 1)). set (D := length sample0).
  destruct (accumulate_loop samples K clusters 0
              (replicate K 0%float) (replicate K (replicate D 0%float)))
    as (counts & centroids & Hloop & Hn & Hc & Hcnt & Hsum).
  { apply length_replicate. }
  { apply length_replicate. }
  { rewrite Forall_forall in Hpos, Hle |- *. intros c Hc.
    specialize (Hpos c Hc). specialize (Hle c Hc). simpl in *. lia. }
  { lia. }
  exists m, sample0,
    (zip_with (fun row n => map (fun x => x / n)%float row) centroids counts).
  split; [done|]. split; [done|]. split; [|split].
  - unfold get_centroids. rewrite Hmax. simpl.
    unfold np_zeros, np_zeros2. rewrite bool_decide_eq_false_2 by lia. simpl.
    rewrite (getitem_lookup _ _ _ Hs0). simpl.
    fold K D. rewrite Hloop. simpl.
    apply (divide_loop counts centroids []). simpl. lia.
  - rewrite length_zip_with. fold K. lia.
  - intros j Hj. rewrite lookup_zip_with.
    rewrite (Hsum j (replicate D 0%float)), (Hcnt j 0%float)
      by (apply lookup_replicate_2; done).
    reflexivity.
Qed.

Lemma cluster_points_Forall (P : vector -> Prop) samples : forall clusters c,
  Forall P samples -> Forall P (cluster_points samples clusters c).
Proof.
  induction samples as [|s samples IH]; intros clusters c Hs.
  - constructor.
  - destruct clusters as [|x clusters]; [rewrite cluster_points_nil_r; constructor|].
    apply Forall_cons in Hs as [Hs0 Hs]. rewrite cluster_points_cons.
    destruct (decide (x = c)); [constructor|]; auto.
Qed.

Lemma cluster_points_all samples : forall clusters c,
  Forall (fun x => x = c) clusters -> length clusters = length samples ->
  cluster_points samples clusters c = samples.
Proof.
  induction samples as [|s samples IH]; intros clusters c Hc Hlen.
  - by destruct clusters.
  - destruct clusters as [|x clusters]; [done|].
    apply Forall_cons in Hc as [-> Hc]. rewrite cluster_points_cons.
    rewrite decide_True by done. f_equal. apply IH; [done | simpl in Hlen; lia].
Qed.

Lemma length_total D points :
  Forall (fun p => length p = D) points -> length (total D points) = D.
Proof.
  unfold total. intros Hp.
  assert (forall acc : vector, length acc = D ->
            length (fold_left (zip_with add) points acc) = D) as H.
  { induction Hp as [|p points Hlen _ IH]; intros acc Hacc; simpl; [done|].
    apply IH. rewrite length_zip_with. lia. }
  apply H, length_replicate.
Qed.

Lemma length_mean D points :
  Forall (fun p => length p = D) points -> length (mean D points) = D.
Proof. intros Hp. unfold mean. by rewrite length_map, length_total. Qed.

(** C2, amended: [get_centroids] takes no [k]; on an assignment with values
    in [0, k) it returns [max + 1] rows, where [max] is the largest id that
    occurs: at most [k] rows, and exactly [k] only when id [k - 1] occurs.
    The rows are ordered by cluster id: row [j] is the mean of cluster [j]. *)
Theorem get_centroids_count (samples : matrix) (clusters : list Z) (k : Z) :
  clusters <> [] ->
  Forall (fun c => 0 <= c < k)%Z clusters ->
  length clusters <= length samples ->
  exists m sample0 R,
    ndarray_max clusters = Ok m /\
    samples !! 0 = Some sample0 /\
    get_centroids samples clusters = Ok R /\
    length R = Z.to_nat (m + 1) /\
    (Z.of_nat (length R) <= k)%Z /\
    (Z.of_nat (length R) = k <-> (k - 1)%Z ∈ clusters) /\
    forall j, j < length R ->
      R !! j = Some (mean (length sample0) (cluster_points samples clusters (Z.of_nat j))).
Proof.
  intros Hne Hk Hlen.
  destruct (get_centroids_spec samples clusters Hne) as
    (m & sample0 & R & Hmax & Hs0 & HR & HlenR & Hrows); [|done|].
  { eapply Forall_impl; [exact Hk|]. simpl. lia. }
  destruct (ndarray_max_spec clusters Hne) as (m' & Hmax' & Hle & Hin).
  assert (m' = m) as -> by congruence.
  rewrite Forall_forall in Hk, Hle. pose proof (Hk m Hin) as Hm.
  exists m, sample0, R. repeat split; try done.
  - lia.
  - intros HK. by replace (k - 1)%Z with m by lia.
  - intros Hin'. specialize (Hle _ Hin'). lia.
  - intros j Hj. apply Hrows. lia.
Qed.

Lemma get_centroids_count_witness :
  exists m sample0 R,
    ndarray_max [0; 0; 1; 1]%Z = Ok m /\
    example_samples !! 0 = Some sample0 /\
    get_centroids example_samples [0; 0; 1; 1]%Z = Ok R /\
    length R = Z.to_nat (m + 1) /\
    (Z.of_nat (length R) <= 3)%Z /\
    (Z.of_nat (length R) = 3%Z <-> (3 - 1)%Z ∈ [0; 0; 1; 1]%Z) /\
    forall j, j < length R ->
      R !! j = Some (mean (length sample0)
                       (cluster_points example_samples [0; 0; 1; 1]%Z (Z.of_nat j))).
Proof.
  apply (get_centroids_count example_samples [0; 0; 1; 1]%Z 3).
  - done.
  - repeat constructor; lia.
  - simpl. lia.
Defined.

(** C2 as stated fails: with every id in [0, 3) and id 2 unused, the result
    has two rows and not three. *)
Lemma get_centroids_count_counterexample :
  Forall (fun c => 0 <= c < 3)%Z [0; 0; 1; 1]%Z /\
  get_centroids example_samples [0; 0; 1; 1]%Z = Ok [[1; 1.5]; [9; 8.5]]%float /\
  ~ (exists R, get_centroids example_samples [0; 0; 1; 1]%Z = Ok R /\ length R = 3).
Proof.
  assert (get_centroids example_samples [0; 0; 1; 1]%Z = Ok [[1; 1.5]; [9; 8.5]]%float)
    as H by (vm_compute; reflexivity).
  split; [repeat constructor; lia|]. split; [exact H|].
  intros (R & HR & Hlen). rewrite H in HR. injection HR as <-. discriminate Hlen.
Qed.

(** C7: on an assignment with values in [0, k), the row of a cluster id [c]
    that has at least one point is the coordinate-wise mean of exactly the
    points assigned to [c]; with [k = 1] and one id per point the result is
    the single row that is the mean of all the points. *)
Theorem get_centroids_mean (samples : matrix) (clusters : list Z) (k c : Z) :
  Forall (fun x => 0 <= x < k)%Z clusters ->
  length clusters <= length samples ->
  c ∈ clusters ->
  exists sample0 R,
    samples !! 0 = Some sample0 /\
    get_centroids samples clusters = Ok R /\
    R !! Z.to_nat c = Some (mean (length sample0) (cluster_points samples clusters c)) /\
    (k = 1%Z -> length clusters = length samples ->
     R = [mean (length sample0) samples]).
Proof.
  intros Hk Hlen Hc.
  assert (clusters <> []) as Hne by (intros ->; by apply elem_of_nil in Hc).
  destruct (get_centroids_spec samples clusters Hne) as
    (m & sample0 & R & Hmax & Hs0 & HR & HlenR & Hrows); [|done|].
  { eapply Forall_impl; [exact Hk|]. simpl. lia. }
  destruct (ndarray_max_spec clusters Hne) as (m' & Hmax' & Hle & Hin).
  assert (m' = m) as -> by congruence.
  rewrite Forall_forall in Hk, Hle.
  pose proof (Hk c Hc) as Hc0. pose proof (Hle c Hc) as Hcm.
  exists sample0, R. repeat split; try done.
  - rewrite (Hrows (Z.to_nat c)) by lia. by rewrite Z2Nat.id by lia.
  - intros -> Hall.
    assert (m = 0%Z) as -> by (specialize (Hk m Hin); lia).
    specialize (Hrows 0 ltac:(simpl; lia)). simpl in HlenR, Hrows.
    rewrite cluster_points_all in Hrows; [|apply Forall_forall; intros x Hx|done].
    + destruct R as [|r [|r' R]]; simpl in *; try discriminate. congruence.
    + specialize (Hk x Hx). lia.
Qed.

Lemma get_centroids_mean_witness :
  exists sample0 R,
    example_samples !! 0 = Some sample0 /\
    get_centroids example_samples [0; 0; 0; 0]%Z = Ok R /\
    R !! Z.to_nat 0 = Some (mean (length sample0)
                              (cluster_points example_samples [0; 0; 0; 0]%Z 0)) /\
    (1%Z = 1%Z -> length [0; 0; 0; 0]%Z = length example_samples ->
     R = [mean (length sample0) example_samples]).
Proof.
  apply (get_centroids_mean example_samples [0; 0; 0; 0]%Z 1 0).
  - repeat constructor; lia.
  - simpl. lia.
  - apply list_elem_of_here.
Defined.

(** ** run_k_means *)

Lemma iteration_Ok samples st i st' :
  iteration samples st i = Ok st' ->
  centroid_history st' = centroid_history st ++ [current_centroids st] /\
  find_closest_centroids samples (current_centroids st) = Ok (clusters st') /\
  get_centroids samples (clusters st') = Ok (current_centroids st').
Proof.
  unfold iteration. intros H. inv_bind H. inv_bind H. by injection H as <-.
Qed.

Lemma iteration_total D samples st i :
  well_formed D samples (current_centroids st) ->
  exists st', iteration samples st i = Ok st' /\
    well_formed D samples (current_centroids st').
Proof.
  intros (Hne & Hs & Hcne & Hc).
  destruct (find_closest_centroids_total samples (current_centroids st) Hcne)
    as (ids & Hids & Hlen & Hrange); [by apply (same_dimension D)|].
  assert (ids <> []) as Hine.
  { intros ->. destruct samples; [done | discriminate Hlen]. }
  destruct (get_centroids_spec samples ids Hine) as
    (m & sample0 & R & Hmax & Hs0 & HR & HlenR & Hrows).
  { eapply Forall_impl; [exact Hrange|]. simpl. lia. }
  { lia. }
  destruct (ndarray_max_spec ids Hine) as (m' & Hmax' & _ & Hin).
  assert (m' = m) as -> by congruence.
  rewrite Forall_forall in Hrange. pose proof (Hrange m Hin) as Hm.
  exists (LoopState (centroid_history st ++ [current_centroids st]) R ids).
  split; [unfold iteration; by rewrite Hids; simpl; rewrite HR|].
  repeat split; simpl; try done.
  - intros ->. simpl in HlenR. lia.
  - apply Forall_lookup. intros j row Hj.
    rewrite Hrows in Hj by (apply lookup_lt_Some in Hj; lia).
    injection Hj as <-. apply list_elem_of_lookup_2 in Hs0.
    rewrite Forall_forall in Hs. rewrite (Hs _ Hs0).
    apply length_mean, cluster_points_Forall, Forall_forall. exact Hs.
Qed.

Lemma for_range_iteration_total D samples n : forall start st,
  well_formed D samples (current_centroids st) ->
  exists st', for_range (iteration samples) start n st = Ok st'.
Proof.
  induction n as [|n IH]; intros start st Hwf; simpl; [eauto|].
  destruct (iteration_total D samples st start Hwf) as (st1 & -> & Hwf1).
  simpl. by apply IH.
Qed.

(** Each iteration appends one snapshot, the centroids it started from. *)
Lemma for_range_iteration_history samples n : forall start st st',
  for_range (iteration samples) start n st = Ok st' ->
  exists rest,
    centroid_history st' = centroid_history st ++ rest /\
    length rest = n /\
    (1 <= n -> rest !! 0 = Some (current_centroids st)).
Proof.
  induction n as [|n IH]; intros start st st' H; simpl in H.
  - injection H as <-. exists []. rewrite app_nil_r. repeat split. lia.
  - inv_bind H. apply iteration_Ok in Ha as (Hh & _ & _).
    apply IH in H as (rest & Hrest & Hlen & _).
    exists (current_centroids st :: rest). rewrite Hrest, Hh, <- app_assoc.
    repeat split. simpl. lia.
Qed.

(** C3: a run of [n_iter >= 1] iterations that returns gives a history of
    exactly [n_iter] snapshots, the first of which is [initial_centroids];
    its last snapshot is the centroid set the final iteration started from,
    and the set that iteration recomputed stays in the loop state: it is
    neither in the returned pair nor appended.  On a well-formed input the
    run does return. *)
Theorem run_k_means_history (D : nat) (samples initial_centroids : matrix) (n_iter : Z) :
  (1 <= n_iter)%Z ->
  (forall cl h, run_k_means samples initial_centroids n_iter = Ok (cl, h) ->
     length h = Z.to_nat n_iter /\
     h !! 0 = Some initial_centroids /\
     exists prev st,
       run_k_means_loop samples initial_centroids (n_iter - 1) = Ok prev /\
       run_k_means_loop samples initial_centroids n_iter = Ok st /\
       cl = clusters st /\
       h = centroid_history st /\
       h = centroid_history prev ++ [current_centroids prev] /\
       find_closest_centroids samples (current_centroids prev) = Ok cl /\
       get_centroids samples cl = Ok (current_centroids st)) /\
  (well_formed D samples initial_centroids ->
   exists cl h, run_k_means samples initial_centroids n_iter = Ok (cl, h)).
Proof.
  intros Hn. split.
  - intros cl h Hrun. unfold run_k_means in Hrun. inv_bind Hrun.
    rename a into st. injection Hrun as <- <-.
    pose proof Ha as Hloop. unfold run_k_means_loop in Ha.
    destruct (for_range_iteration_history _ _ _ _ _ Ha) as (rest & Hh & Hlen & H0).
    simpl in Hh. subst rest. split; [done|]. split; [apply H0; lia|].
    replace (Z.to_nat n_iter) with (S (Z.to_nat (n_iter - 1))) in Ha by lia.
    rewrite for_range_snoc in Ha. inv_bind Ha. rename a into prev.
    apply iteration_Ok in Ha as (Hhist & Hfind & Hget).
    exists prev, st. by repeat split.
  - intros Hwf. unfold run_k_means, run_k_means_loop.
    destruct (for_range_iteration_total D samples (Z.to_nat n_iter) 0
                (LoopState [] initial_centroids [])) as (st & ->); [done|].
    simpl. eauto.
Qed.

Lemma run_k_means_history_witness :
  exists cl h,
    run_k_means example_samples example_centroids3 3 = Ok (cl, h) /\
    length h = 3 /\ h !! 0 = Some example_centroids3.
Proof.
  destruct (run_k_means_history 2 example_samples example_centroids3 3 ltac:(lia))
    as [Hprop Htotal].
  destruct Htotal as (cl & h & Hrun).
  { repeat split; try done; repeat constructor. }
  exists cl, h. split; [exact Hrun|].
  destruct (Hprop cl h Hrun) as (Hlen & Hfirst & _). by split.
Defined.

(** One iteration from stable centroids [C] leaves them as they are. *)
Lemma iteration_stable samples C a h cl i :
  find_closest_centroids samples C = Ok a ->
  get_centroids samples a = Ok C ->
  iteration samples (LoopState h C cl) i = Ok (LoopState (h ++ [C]) C a).
Proof. intros Ha HC. unfold iteration. simpl. rewrite Ha. simpl. by rewrite HC. Qed.

Lemma for_range_iteration_stable samples C a :
  find_closest_centroids samples C = Ok a ->
  get_centroids samples a = Ok C ->
  forall m start h cl,
    for_range (iteration samples) start (S m) (LoopState h C cl)
    = Ok (LoopState (h ++ replicate (S m) C) C a).
Proof.
  intros Ha HC. induction m as [|m IH]; intros start h cl.
  - simpl. by rewrite (iteration_stable _ _ a).
  - rewrite for_range_S, (iteration_stable _ _ a), bind_ret by done. cbv beta.
    rewrite IH. by rewrite <- app_assoc.
Qed.

(** C4: once the loop holds centroids [C] that one more assign-and-aggregate
    round maps to themselves, every further iteration leaves the current
    centroids at [C] and returns one and the same assignment. *)
Theorem run_k_means_stable (samples initial_centroids C : matrix) (n : Z) (st : loop_state) :
  (0 <= n)%Z ->
  run_k_means_loop samples initial_centroids n = Ok st ->
  current_centroids st = C ->
  (a ← find_closest_centroids samples C; get_centroids samples a) = Ok C ->
  exists a,
    find_closest_centroids samples C = Ok a /\
    forall m, (1 <= m)%Z ->
      run_k_means_loop samples initial_centroids (n + m)
        = Ok (LoopState (centroid_history st ++ replicate (Z.to_nat m) C) C a) /\
      run_k_means samples initial_centroids (n + m)
        = Ok (a, centroid_history st ++ replicate (Z.to_nat m) C).
Proof.
  intros Hn Hloop HC Hstable. inv_bind Hstable. exists a. split; [done|].
  intros m Hm.
  assert (run_k_means_loop samples initial_centroids (n + m)
          = Ok (LoopState (centroid_history st ++ replicate (Z.to_nat m) C) C a)) as H.
  { unfold run_k_means_loop in *.
    rewrite Z2Nat.inj_add, for_range_add, Hloop by lia. simpl.
    destruct st as [h C' cl]. simpl in HC. subst C'. simpl.
    replace (Z.to_nat m) with (S (Z.to_nat (m - 1))) by lia.
    by apply for_range_iteration_stable. }
  split; [done|]. unfold run_k_means. by rewrite H.
Qed.

Lemma run_k_means_stable_witness :
  exists a,
    find_closest_centroids example_samples [[1; 1.5]; [9; 8.5]]%float = Ok a /\
    forall m, (1 <= m)%Z ->
      run_k_means_loop example_samples example_centroids (1 + m)
        = Ok (LoopState ([example_centroids] ++
                         replicate (Z.to_nat m) [[1; 1.5]; [9; 8.5]]%float)
                [[1; 1.5]; [9; 8.5]]%float a) /\
      run_k_means example_samples example_centroids (1 + m)
        = Ok (a, [example_centroids] ++
                 replicate (Z.to_nat m) [[1; 1.5]; [9; 8.5]]%float).
Proof.
  apply (run_k_means_stable example_samples example_centroids
           [[1; 1.5]; [9; 8.5]]%float 1
           (LoopState [example_centroids] [[1; 1.5]; [9; 8.5]]%float [0; 0; 1; 1]%Z)).
  - lia.
  - vm_compute. reflexivity.
  - reflexivity.
  - vm_compute. reflexivity.
Defined.

(** C5: on the four example points with initial centroids (0,0) and (10,10),
    one iteration returns the assignment [0,0,1,1], and aggregating that
    assignment gives the centroids (1.0,1.5) and (9.0,8.5). *)
Theorem run_k_means_example :
  run_k_means example_samples example_centroids 1
    = Ok ([0; 0; 1; 1]%Z, [example_centroids]) /\
  get_centroids example_samples [0; 0; 1; 1]%Z = Ok [[1; 1.5]; [9; 8.5]]%float /\
  (st ← run_k_means_loop example_samples example_centroids 1; Ok (current_centroids st))
    = Ok [[1; 1.5]; [9; 8.5]]%float.
Proof. repeat split; vm_compute; reflexivity. Qed.

(** C10: with [n_iter = 0] the loop body never runs: no assignment is
    computed, no error is raised, and the run returns the empty assignment
    with the empty history. *)
Theorem run_k_means_zero (samples initial_centroids : matrix) :
  run_k_means_loop samples initial_centroids 0 = Ok (LoopState [] initial_centroids []) /\
  run_k_means samples initial_centroids 0 = Ok ([], []).
Proof. split; reflexivity. Qed.

(** C1, amended: the script has no [EmptyCluster] error.  On an assignment
    with values in [0, k) in which some id of [0, k) has no point,
    [get_centroids] returns a centroid set; and a run whose initial centroids
    produce such an assignment returns as well. *)
Theorem get_centroids_empty_cluster (D : nat) (samples centroids : matrix)
    (clusters : list Z) (k n_iter : Z) :
  clusters <> [] ->
  Forall (fun c => 0 <= c < k)%Z clusters ->
  length clusters <= length samples ->
  has_empty_cluster k clusters ->
  (exists R, get_centroids samples clusters = Ok R) /\
  (well_formed D samples centroids ->
   find_closest_centroids samples centroids = Ok clusters ->
   k = Z.of_nat (length centroids) ->
   exists cl h, run_k_means samples centroids n_iter = Ok (cl, h)).
Proof.
  intros Hne Hk Hlen _. split.
  - destruct (get_centroids_spec samples clusters Hne) as
      (m & sample0 & R & _ & _ & HR & _); [|done|by exists R].
    eapply Forall_impl; [exact Hk|]. simpl. lia.
  - intros Hwf _ _. unfold run_k_means, run_k_means_loop.
    destruct (for_range_iteration_total D samples (Z.to_nat n_iter) 0
                (LoopState [] centroids [])) as (st & ->); [done|].
    simpl. eauto.
Qed.

Lemma get_centroids_empty_cluster_witness :
  (exists R, get_centroids example_samples [0; 0; 2; 2]%Z = Ok R) /\
  (exists cl h, run_k_means example_samples example_centroids3 10 = Ok (cl, h)).
Proof.
  destruct (get_centroids_empty_cluster 2 example_samples example_centroids3
              [0; 0; 2; 2]%Z 3 10) as [HR Hrun].
  - done.
  - repeat constructor; lia.
  - simpl. lia.
  - exists 1%Z. split; [lia|]. by rewrite !elem_of_cons, elem_of_nil; intros [|[|[|[|]]]].
  - split; [exact HR|]. apply Hrun.
    + repeat split; try done; repeat constructor.
    + vm_compute. reflexivity.
    + reflexivity.
Defined.

(** C1 as stated fails: ids 0 and 2 of [0, 3) are used and id 1 is not, and
    [get_centroids] raises nothing: it returns three rows, the middle one
    [0/0]; the run from three centroids of which the middle one attracts no
    point returns too. *)
Lemma get_centroids_empty_cluster_counterexample :
  has_empty_cluster 3 [0; 0; 2; 2]%Z /\
  get_centroids example_samples [0; 0; 2; 2]%Z
    = Ok [[1; 1.5]; [nan; nan]; [9; 8.5]]%float /\
  ~ raises (get_centroids example_samples [0; 0; 2; 2]%Z) /\
  find_closest_centroids example_samples example_centroids3 = Ok [0; 0; 2; 2]%Z /\
  run_k_means example_samples example_centroids3 1
    = Ok ([0; 0; 2; 2]%Z, [example_centroids3]) /\
  ~ raises (run_k_means example_samples example_centroids3 1).
Proof.
  assert (get_centroids example_samples [0; 0; 2; 2]%Z
          = Ok [[1; 1.5]; [nan; nan]; [9; 8.5]]%float) as HR
    by (vm_compute; reflexivity).
  assert (run_k_means example_samples example_centroids3 1
          = Ok ([0; 0; 2; 2]%Z, [example_centroids3])) as Hrun
    by (vm_compute; reflexivity).
  split; [|split; [|split; [|split; [|split]]]].
  - exists 1%Z. split; [lia|]. by rewrite !elem_of_cons, elem_of_nil; intros [|[|[|[|]]]].
  - exact HR.
  - intros [e He]. rewrite HR in He. discriminate He.
  - vm_compute. reflexivity.
  - exact Hrun.
  - intros [e He]. rewrite Hrun in He. discriminate He.
Qed.

(** ** Configurations the specification calls invalid *)

Lemma run_k_means_no_centroids samples n :
  for_range (iteration samples) 0 (S n) (LoopState [] [] []) = Raise ValueError.
Proof.
  rewrite for_range_S. unfold iteration at 2. simpl current_centroids.
  rewrite find_closest_centroids_mapM. by destruct samples.
Qed.

Lemma for_range_getitem_out_of_range (b : matrix) n : forall start (centroids : matrix),
  start <= length b < start + n ->
  for_range (fun centroids i => row ← getitem b i; Ok (<[i := row]> centroids))
    start n centroids = Raise IndexError.
Proof.
  induction n as [|n IH]; intros start centroids Hn; [lia|].
  rewrite for_range_S. unfold getitem at 2.
  destruct (b !! start) as [row|] eqn:Hrow; [|done].
  apply lookup_lt_Some in Hrow. simpl. apply IH. lia.
Qed.

Lemma for_range_getitem_fill (b : matrix) (z : vector) n : forall pre,
  length pre + n <= length b ->
  for_range (fun centroids i => row ← getitem b i; Ok (<[i := row]> centroids))
    (length pre) n (pre ++ replicate n z)
  = Ok (pre ++ take n (drop (length pre) b)).
Proof.
  induction n as [|n IH]; intros pre Hn.
  - done.
  - destruct (lookup_lt_is_Some_2 b (length pre)) as [row Hrow]; [lia|].
    rewrite for_range_S, (getitem_lookup _ _ _ Hrow), bind_ret, bind_ret.
    simpl replicate. rewrite insert_app_r_alt, Nat.sub_diag by lia.
    rewrite (drop_S _ _ _ Hrow). simpl.
    replace (pre ++ row :: replicate n z) with ((pre ++ [row]) ++ replicate n z)
      by (by rewrite <- app_assoc).
    replace (S (length pre)) with (length (pre ++ [row]))
      by (rewrite length_app; simpl; lia).
    rewrite IH by (rewrite length_app; simpl; lia).
    by rewrite <- app_assoc.
Qed.

(** With [0 <= K <= N] the initial centroids are the first [K] rows of the
    shuffled point set. *)
Lemma choose_random_centroids_take permutation samples (K : Z) :
  (forall l, length (permutation l) = length l) ->
  samples <> [] -> (0 <= K <= Z.of_nat (length samples))%Z ->
  choose_random_centroids permutation samples K
  = Ok (take (Z.to_nat K) (permutation samples)).
Proof.
  intros Hperm Hne HK. unfold choose_random_centroids.
  destruct samples as [|sample0 samples']; [done|].
  rewrite (getitem_lookup _ 0 sample0), bind_ret by done. unfold np_zeros2.
  rewrite bool_decide_eq_false_2, bind_ret by lia.
  apply (for_range_getitem_fill _ _ _ []). rewrite Hperm. simpl in *. lia.
Qed.

(** C9, amended: the script validates nothing and has no
    [InvalidConfiguration].  A negative [n_iter] is not rejected: the run
    returns the empty assignment and the empty history, having done no work.
    An empty centroid set makes the first iteration raise [ValueError].  In
    random initialisation [K > N] raises [IndexError] and [K < 0] raises
    [ValueError], in [choose_random_centroids], so before any iteration. *)
Theorem invalid_configuration (permutation : matrix -> matrix)
    (samples centroids : matrix) (K n_iter : Z) :
  ((n_iter < 0)%Z ->
     run_k_means_loop samples centroids n_iter = Ok (LoopState [] centroids []) /\
     run_k_means samples centroids n_iter = Ok ([], [])) /\
  ((1 <= n_iter)%Z -> run_k_means samples [] n_iter = Raise ValueError) /\
  ((forall l, length (permutation l) = length l) ->
   (Z.of_nat (length samples) < K)%Z ->
     choose_random_centroids permutation samples K = Raise IndexError) /\
  ((K < 0)%Z -> samples <> [] ->
     choose_random_centroids permutation samples K = Raise ValueError).
Proof.
  split; [|split; [|split]].
  - intros Hn. unfold run_k_means, run_k_means_loop.
    by replace (Z.to_nat n_iter) with 0 by lia.
  - intros Hn. unfold run_k_means, run_k_means_loop.
    replace (Z.to_nat n_iter) with (S (Z.to_nat (n_iter - 1))) by lia.
    by rewrite run_k_means_no_centroids.
  - intros Hperm HK. unfold choose_random_centroids, getitem.
    destruct samples as [|sample0 samples']; [done|]. simpl lookup. simpl mbind.
    unfold np_zeros2. rewrite bool_decide_eq_false_2 by lia. simpl mbind.
    apply for_range_getitem_out_of_range. rewrite Hperm. simpl in *. lia.
  - intros HK Hne. unfold choose_random_centroids, getitem.
    destruct samples as [|sample0 samples']; [done|]. simpl.
    unfold np_zeros2. by rewrite bool_decide_eq_true_2.
Qed.

Lemma invalid_configuration_witness :
  run_k_means example_samples example_centroids (-1) = Ok ([], []) /\
  run_k_means example_samples [] 1 = Raise ValueError /\
  choose_random_centroids reverse example_samples 5 = Raise IndexError /\
  choose_random_centroids reverse example_samples (-1) = Raise ValueError.
Proof.
  destruct (invalid_configuration reverse example_samples example_centroids 5 (-1))
    as ([_ Hneg] & _ & Hbig & _); [lia|].
  destruct (invalid_configuration reverse example_samples example_centroids (-1) 1)
    as (_ & Hnone & _ & Hsmall).
  split; [exact Hneg|]. split; [apply Hnone; lia|].
  split; [apply Hbig; [apply length_reverse | simpl; lia] | by apply Hsmall].
Defined.

(** C9 as stated fails: a negative iteration count and [K = 0] in random
    initialisation are both accepted without any error. *)
Lemma invalid_configuration_counterexample :
  run_k_means example_samples example_centroids (-1) = Ok ([], []) /\
  ~ raises (run_k_means example_samples example_centroids (-1)) /\
  choose_random_centroids reverse example_samples 0 = Ok [] /\
  ~ raises (choose_random_centroids reverse example_samples 0).
Proof.
  split; [|split; [|split]]; try reflexivity; intros [e He]; discriminate He.
Qed.

(** * Further properties of the code *)

(** ** [nan] in [float64] arithmetic *)

Lemma SFeqb_refl_nan f : SFeqb f f = false <-> f = S754_nan.
Proof.
  unfold SFeqb, SFcompare. destruct f as [s|s| |s m e]; try destruct s;
    rewrite ?Z.compare_refl, ?Pos.compare_cont_refl; simpl; split; congruence.
Qed.

Lemma is_nan_Prim2SF x : is_nan x = true <-> Prim2SF x = S754_nan.
Proof.
  unfold is_nan. rewrite FloatAxioms.eqb_spec, <- SFeqb_refl_nan.
  by destruct (SFeqb _ _).
Qed.

(** There is one [nan]. *)
Lemma is_nan_unique x y : is_nan x = true -> is_nan y = true -> x = y.
Proof.
  intros Hx%is_nan_Prim2SF Hy%is_nan_Prim2SF.
  rewrite <- (SF2Prim_Prim2SF x), <- (SF2Prim_Prim2SF y). congruence.
Qed.

Lemma is_nan_sub_r x y : is_nan y = true -> is_nan (x - y)%float = true.
Proof.
  rewrite !is_nan_Prim2SF, sub_spec. intros ->. unfold SF64sub.
  by destruct (Prim2SF x).
Qed.

Lemma is_nan_sub_l x y : is_nan x = true -> is_nan (x - y)%float = true.
Proof. rewrite !is_nan_Prim2SF, sub_spec. by intros ->. Qed.

Lemma is_nan_mul x : is_nan x = true -> is_nan (x * x)%float = true.
Proof. rewrite !is_nan_Prim2SF, mul_spec. by intros ->. Qed.

Lemma is_nan_add_l x y : is_nan x = true -> is_nan (x + y)%float = true.
Proof. rewrite !is_nan_Prim2SF, add_spec. by intros ->. Qed.

Lemma is_nan_add_r x y : is_nan y = true -> is_nan (x + y)%float = true.
Proof.
  rewrite !is_nan_Prim2SF, add_spec. intros ->. unfold SF64add.
  by destruct (Prim2SF x).
Qed.

Lemma is_nan_sqrt x : is_nan x = true -> is_nan (sqrt x) = true.
Proof. rewrite !is_nan_Prim2SF, sqrt_spec. by intros ->. Qed.

Lemma leb_nan_r x y : is_nan y = true -> (x <=? y)%float = false.
Proof.
  rewrite is_nan_Prim2SF, FloatAxioms.leb_spec. intros ->.
  unfold SFleb, SFcompare. by destruct (Prim2SF x).
Qed.

Lemma is_nan_fold_add l : forall acc,
  is_nan acc = true \/ (exists x, x ∈ l /\ is_nan x = true) ->
  is_nan (fold_left add l acc) = true.
Proof.
  induction l as [|y l IH]; intros acc [Hacc | (x & Hx & Hnan)]; simpl.
  - done.
  - by apply elem_of_nil in Hx.
  - apply IH. left. by apply is_nan_add_l.
  - apply IH. apply elem_of_cons in Hx as [<- | Hx].
    + left. by apply is_nan_add_r.
    + right. eauto.
Qed.

Lemma is_nan_norm v : has_nan v -> is_nan (norm v * norm v)%float = true.
Proof.
  intros (x & Hx & Hnan). apply is_nan_mul. unfold norm. apply is_nan_sqrt.
  apply is_nan_fold_add. right. exists (x * x)%float. split.
  - apply list_elem_of_fmap. eauto.
  - by apply is_nan_mul.
Qed.

(** [np.argmin] returns the position of the first [nan], if there is one. *)
Lemma argmin_nan d r j y :
  argmin d = Ok r -> d !! j = Some y -> is_nan y = true ->
  r <= j /\ d !! r = Some y.
Proof.
  intros (x & Hx & Hfirst & [Hnan | Hmin])%argmin_spec Hj Hy.
  - assert (y = x) as -> by (by apply is_nan_unique). split; [by apply Hfirst | done].
  - apply list_elem_of_lookup_2, Hmin in Hj. rewrite leb_nan_r in Hj; done.
Qed.

(** ** find_closest_centroids: shape, composition, errors *)

Lemma mapM_length {A B} (f : A -> result B) l k : mapM f l = Ok k -> length k = length l.
Proof. intros H%mapM_Ok. symmetry. by eapply Forall2_length. Qed.

Lemma mapM_app {A B} (f : A -> result B) l1 l2 :
  mapM f (l1 ++ l2) = k1 ← mapM f l1; k2 ← mapM f l2; Ok (k1 ++ k2).
Proof.
  induction l1 as [|x l1 IH]; simpl.
  - by destruct (mapM f l2).
  - destruct (f x) as [y|e]; simpl; [|done]. rewrite IH.
    destruct (mapM f l1) as [k1|e]; simpl; [|done].
    by destruct (mapM f l2).
Qed.

(** The first failure decides: if every failure of [f] is [e0] and some
    element fails, the map raises [e0]. *)
Lemma mapM_Raise {A B} (f : A -> result B) (e0 : exn) l :
  (forall x e, f x = Raise e -> e = e0) ->
  Exists (fun x => exists e, f x = Raise e) l ->
  mapM f l = Raise e0.
Proof.
  intros Hf. induction l as [|x l IH]; intros Hex; [by inversion Hex|]. simpl.
  destruct (f x) as [y|e] eqn:Hx; simpl.
  - rewrite IH; [done|]. apply Exists_cons in Hex as [[e He] | Hex]; [congruence | done].
  - by rewrite (Hf x e Hx).
Qed.

Lemma mapM_Raise_inv {A B} (f : A -> result B) (e : exn) l :
  mapM f l = Raise e -> exists x, x ∈ l /\ f x = Raise e.
Proof.
  induction l as [|x l IH]; simpl; [done|].
  destruct (f x) as [y|e'] eqn:Hx; simpl.
  - destruct (mapM f l) as [k|e'] eqn:Hl; simpl; [done|]. intros [= ->].
    destruct IH as (x' & Hin & Hx'); [done|]. exists x'. split; [|done].
    by apply list_elem_of_further.
  - intros [= ->]. exists x. split; [apply list_elem_of_here | done].
Qed.

Lemma closest_Ok_range centroids sample c :
  closest centroids sample = Ok c -> (0 <= c < Z.of_nat (length centroids))%Z.
Proof.
  unfold closest, sq_distances. intros H. inv_bind H. inv_bind Ha.
  injection Ha as <-. inv_bind H. injection H as <-.
  apply mapM_length in Ha0. apply argmin_spec in Ha as (x & Hx%lookup_lt_Some & _).
  rewrite length_map in Hx. lia.
Qed.

Lemma find_closest_centroids_Ok_shape samples centroids ids :
  find_closest_centroids samples centroids = Ok ids ->
  length ids = length samples /\
  Forall (fun c => 0 <= c < Z.of_nat (length centroids))%Z ids.
Proof.
  rewrite find_closest_centroids_mapM. intros H. split; [by eapply mapM_length|].
  apply mapM_Ok in H. apply Forall_forall. intros c Hc.
  apply list_elem_of_lookup in Hc as [i Hi].
  destruct (Forall2_lookup_r _ _ _ _ _ H Hi) as (s & _ & Hs).
  by eapply closest_Ok_range.
Qed.

(** X1: the id of a point does not depend on the other points: the
    assignment of a concatenation is the concatenation of the assignments. *)
Theorem find_closest_centroids_app (samples1 samples2 centroids : matrix) :
  find_closest_centroids (samples1 ++ samples2) centroids =
  ids1 ← find_closest_centroids samples1 centroids;
  ids2 ← find_closest_centroids samples2 centroids;
  Ok (ids1 ++ ids2).
Proof. rewrite !find_closest_centroids_mapM. apply mapM_app. Qed.

Lemma broadcast_total op x y :
  length x = length y \/ length x = 1 \/ length y = 1 ->
  exists v, broadcast op x y = Ok v.
Proof.
  intros H. unfold broadcast. case_bool_decide; [eauto|].
  destruct H as [H | [H | H]]; [done | |].
  - destruct x as [|a [|]]; try discriminate. eauto.
  - destruct y as [|b [|]]; try discriminate.
    destruct x as [|a [|]]; eauto.
Qed.

Lemma broadcast_mismatch op x y :
  length x <> length y -> length x <> 1 -> length y <> 1 ->
  broadcast op x y = Raise ValueError.
Proof.
  intros H Hx Hy. unfold broadcast. rewrite bool_decide_eq_false_2 by done.
  destruct x as [|a [|]], y as [|b [|]]; simpl in *; done.
Qed.

Lemma broadcast_ValueError op x y e : broadcast op x y = Raise e -> e = ValueError.
Proof.
  unfold broadcast. case_bool_decide; [done|].
  destruct x as [|a [|]], y as [|b [|]]; simpl; congruence.
Qed.

Lemma argmin_ValueError a e : argmin a = Raise e -> e = ValueError.
Proof. destruct a; simpl; [congruence|]. by destruct (is_nan _). Qed.

Lemma closest_ValueError centroids sample e :
  closest centroids sample = Raise e -> e = ValueError.
Proof.
  unfold closest, sq_distances.
  destruct (mapM (broadcast sub sample) centroids) as [diffs|e'] eqn:Hd; simpl.
  - destruct (argmin _) as [j|e'] eqn:Hj; simpl; [done|].
    intros [= <-]. by eapply argmin_ValueError.
  - intros [= <-]. apply mapM_Raise_inv in Hd as (c & _ & Hc).
    by eapply broadcast_ValueError.
Qed.

Lemma closest_raises centroids sample :
  centroids = [] \/
  (exists c, c ∈ centroids /\ length sample <> length c /\
     length sample <> 1 /\ length c <> 1) ->
  closest centroids sample = Raise ValueError.
Proof.
  intros [-> | (c & Hc & Hne & Hs1 & Hc1)]; [done|].
  unfold closest, sq_distances.
  rewrite (mapM_Raise (broadcast sub sample) ValueError); [done | |].
  - intros x e. apply broadcast_ValueError.
  - apply Exists_exists. exists c. split; [done|].
    exists ValueError. by apply broadcast_mismatch.
Qed.

Lemma closest_total_broadcast centroids sample :
  centroids <> [] ->
  Forall (fun c => length sample = length c \/ length sample = 1 \/ length c = 1)
    centroids ->
  exists c, closest centroids sample = Ok c.
Proof.
  intros Hne Hc. unfold closest, sq_distances.
  assert (exists diffs, mapM (broadcast sub sample) centroids = Ok diffs /\
            length diffs = length centroids) as (diffs & -> & Hlen).
  { induction Hc as [|c cs Hb _ IH]; [done|].
    destruct (broadcast_total sub sample c Hb) as (v & Hv). simpl. rewrite Hv. simpl.
    destruct cs as [|c' cs']; [by exists [v]|].
    destruct IH as (diffs & -> & Hd); [done|]. simpl. exists (v :: diffs).
    split; [done|]. simpl. by rewrite Hd. }
  simpl.
  match goal with |- context [argmin ?d] => destruct (argmin_total d) as (r & ->) end;
    [|simpl; eauto].
  intros Hnil. apply (f_equal length) in Hnil. rewrite length_map, Hlen in Hnil.
  by destruct centroids.
Qed.

Lemma find_closest_centroids_cases (D D' : nat) (samples centroids : matrix) :
  Forall (fun s => length s = D) samples ->
  Forall (fun c => length c = D') centroids ->
  let invalid := samples <> [] /\ (centroids = [] \/ (D <> D' /\ D <> 1 /\ D' <> 1)) in
  (invalid -> find_closest_centroids samples centroids = Raise ValueError) /\
  (~ invalid -> exists ids, find_closest_centroids samples centroids = Ok ids).
Proof.
  intros Hs Hc. simpl. rewrite find_closest_centroids_mapM. split.
  - intros [Hne Hbad]. apply mapM_Raise; [apply closest_ValueError|].
    destruct samples as [|s samples']; [done|]. apply Exists_cons_hd.
    exists ValueError. apply Forall_cons in Hs as [Hs0 _]. apply closest_raises.
    destruct Hbad as [-> | (Hne' & H1 & H1')]; [by left|].
    destruct centroids as [|c centroids']; [by left|]. right.
    apply Forall_cons in Hc as [Hc0 _]. exists c.
    split; [apply list_elem_of_here | lia].
  - intros Hvalid. destruct (decide (samples = [])) as [->|Hne]; [by exists []|].
    assert (centroids <> []) as Hcne.
    { intros ->. apply Hvalid. split; [done | by left]. }
    assert (D = D' \/ D = 1 \/ D' = 1) as Hdim.
    { destruct (decide (D = D')), (decide (D = 1)), (decide (D' = 1)); auto.
      exfalso. apply Hvalid. split; [done | by right]. }
    clear Hne Hvalid.
    induction Hs as [|s samples Hlen _ (ids & IH)]; [by exists []|]. simpl.
    destruct (closest_total_broadcast centroids s Hcne) as (c & ->).
    { eapply Forall_impl; [exact Hc|]. simpl. intros c' Hc'. lia. }
    rewrite IH. simpl. eauto.
Qed.

(** X2: exactly when [find_closest_centroids] fails, for a point set of
    dimension D and a centroid set of dimension D': there is a point, and
    either there is no centroid or D and D' do not broadcast.  The exception
    is then [ValueError]; otherwise the call returns. *)
Theorem find_closest_centroids_raises_iff (D D' : nat) (samples centroids : matrix) :
  Forall (fun s => length s = D) samples ->
  Forall (fun c => length c = D') centroids ->
  let invalid := samples <> [] /\ (centroids = [] \/ (D <> D' /\ D <> 1 /\ D' <> 1)) in
  (invalid -> find_closest_centroids samples centroids = Raise ValueError) /\
  (~ invalid -> exists ids, find_closest_centroids samples centroids = Ok ids).
Proof. apply find_closest_centroids_cases. Qed.

Lemma find_closest_centroids_raises_iff_witness :
  find_closest_centroids example_samples [[0; 0; 0]]%float = Raise ValueError /\
  exists ids, find_closest_centroids example_samples [[5]]%float = Ok ids.
Proof.
  split.
  - apply (find_closest_centroids_raises_iff 2 3 example_samples [[0; 0; 0]]%float).
    + repeat constructor.
    + repeat constructor.
    + split; [done|]. right. lia.
  - apply (find_closest_centroids_raises_iff 2 1 example_samples [[5]]%float).
    + repeat constructor.
    + repeat constructor.
    + intros [_ [? | ?]]; [done | lia].
Defined.

Lemma sq_distances_nan sample centroids d j c :
  sq_distances sample centroids = Ok d ->
  centroids !! j = Some c -> length sample = length c -> has_nan c ->
  exists y, d !! j = Some y /\ is_nan y = true.
Proof.
  unfold sq_distances. intros H Hj Hlen (x & Hx & Hnan). inv_bind H.
  injection H as <-. rename a into diffs. apply mapM_Ok in Ha.
  destruct (Forall2_lookup_l _ _ _ _ _ Ha Hj) as (v & Hv & Hb).
  rewrite broadcast_same in Hb by done. injection Hb as <-.
  rewrite list_lookup_fmap, Hv. simpl. eexists. split; [done|].
  apply is_nan_norm. apply list_elem_of_lookup in Hx as [k Hk].
  destruct (lookup_lt_is_Some_2 sample k) as [a Ha'].
  { apply lookup_lt_Some in Hk. lia. }
  exists (a - x)%float. split; [|by apply is_nan_sub_r].
  apply list_elem_of_lookup. exists k. by rewrite lookup_zip_with, Ha', Hk.
Qed.

Lemma find_closest_centroids_nan_rows (samples centroids : matrix) (ids : list Z)
    (j : nat) (c : vector) :
  find_closest_centroids samples centroids = Ok ids ->
  centroids !! j = Some c -> has_nan c ->
  Forall (fun s => length s = length c) samples ->
  Forall (fun id => id <= Z.of_nat j)%Z ids.
Proof.
  rewrite find_closest_centroids_mapM. intros H%mapM_Ok Hj Hnan Hs.
  apply Forall_forall. intros id Hid. apply list_elem_of_lookup in Hid as [i Hi].
  destruct (Forall2_lookup_r _ _ _ _ _ H Hi) as (s & Hsi & Hcl).
  rewrite Forall_forall in Hs. apply list_elem_of_lookup_2, Hs in Hsi.
  unfold closest in Hcl. inv_bind Hcl. rename a into d. inv_bind Hcl.
  injection Hcl as <-.
  destruct (sq_distances_nan _ _ _ _ _ Ha Hj Hsi Hnan) as (y & Hy & Hynan).
  destruct (argmin_nan _ _ _ _ Ha0 Hy Hynan) as [Hle _]. lia.
Qed.

(** X3: a centroid with a [nan] coordinate takes the points away from every
    centroid after it: no point of its dimension gets an id above the index
    of such a centroid. *)
Theorem find_closest_centroids_nan (samples centroids : matrix) (ids : list Z)
    (j : nat) (c : vector) :
  find_closest_centroids samples centroids = Ok ids ->
  centroids !! j = Some c -> has_nan c ->
  Forall (fun s => length s = length c) samples ->
  Forall (fun id => id <= Z.of_nat j)%Z ids.
Proof. apply find_closest_centroids_nan_rows. Qed.

Lemma find_closest_centroids_nan_witness :
  Forall (fun id => id <= Z.of_nat 1)%Z [1; 1; 1; 1]%Z.
Proof.
  apply (find_closest_centroids_nan example_samples
           [[1; 1.5]; [nan; nan]; [9; 8.5]]%float [1; 1; 1; 1]%Z 1 [nan; nan]%float).
  - vm_compute. reflexivity.
  - reflexivity.
  - exists nan. split; [apply list_elem_of_here | reflexivity].
  - repeat constructor.
Defined.

(** ** get_centroids: surplus points, negative ids, errors, shape *)

Lemma accumulate_take samples n st i c :
  i < n -> accumulate (take n samples) st i c = accumulate samples st i c.
Proof. intros Hi. unfold accumulate, getitem. by rewrite lookup_take_lt. Qed.

Lemma for_enumerate_accumulate_take samples n clusters : forall i st,
  i + length clusters <= n ->
  for_enumerate (accumulate (take n samples)) i clusters st =
  for_enumerate (accumulate samples) i clusters st.
Proof.
  induction clusters as [|c clusters IH]; intros i st Hi; [done|].
  simpl in Hi. rewrite !for_enumerate_cons, accumulate_take by lia.
  destruct (accumulate samples st i c) as [st'|e]; simpl; [|done].
  apply IH. lia.
Qed.

(** X4: the points beyond the end of the assignment play no part: the result,
    or the exception, is that of the point set cut to the length of the
    assignment. *)
Theorem get_centroids_take (samples : matrix) (clusters : list Z) :
  length clusters <= length samples ->
  get_centroids (take (length clusters) samples) clusters = get_centroids samples clusters.
Proof.
  intros Hlen. unfold get_centroids.
  destruct (ndarray_max clusters) as [m|e] eqn:Hmax; simpl; [|done].
  destruct (np_zeros (m + 1)) as [counts|e]; simpl; [|done].
  assert (getitem (take (length clusters) samples) 0 = getitem samples 0) as ->.
  { unfold getitem. rewrite lookup_take_lt; [done|]. by destruct clusters; simpl; [|lia]. }
  destruct (getitem samples 0) as [sample0|e]; simpl; [|done].
  destruct (np_zeros2 (m + 1) (length sample0)) as [centroids|e]; simpl; [|done].
  by rewrite for_enumerate_accumulate_take by (simpl; lia).
Qed.

Lemma get_centroids_take_witness :
  get_centroids (take (length [0; 1]%Z) example_samples) [0; 1]%Z
  = get_centroids example_samples [0; 1]%Z.
Proof. apply (get_centroids_take example_samples [0; 1]%Z). simpl. lia. Defined.

Lemma getindex_Ok_inv len c j :
  getindex len c = Ok j -> (- Z.of_nat len <= c < Z.of_nat len)%Z.
Proof. unfold getindex. repeat case_bool_decide; intros [=]; lia. Qed.

Lemma getindex_wrap len c :
  (- Z.of_nat len <= c < Z.of_nat len)%Z ->
  getindex len (wrap (Z.of_nat len) c) = getindex len c.
Proof.
  intros Hc. unfold wrap, getindex.
  repeat case_bool_decide; try lia; done.
Qed.

Lemma accumulate_Ok_inv samples counts centroids i c counts' centroids' :
  accumulate samples (counts, centroids) i c = Ok (counts', centroids') ->
  length counts' = length counts /\ length centroids' = length centroids /\
  (- Z.of_nat (length counts) <= c < Z.of_nat (length counts))%Z /\
  i < length samples.
Proof.
  unfold accumulate. intros H. inv_bind H. inv_bind H. inv_bind H.
  injection H as <- <-. rewrite !length_alter.
  apply getindex_Ok_inv in Ha. unfold getitem in Ha1.
  destruct (samples !! i) eqn:Hi; [|done]. apply lookup_lt_Some in Hi. done.
Qed.

Lemma accumulate_loop_Ok_inv samples (K : nat) clusters : forall i counts centroids st',
  length counts = K -> length centroids = K ->
  for_enumerate (accumulate samples) i clusters (counts, centroids) = Ok st' ->
  Forall (fun c => - Z.of_nat K <= c < Z.of_nat K)%Z clusters /\
  (clusters <> [] -> i + length clusters <= length samples).
Proof.
  induction clusters as [|c clusters IH]; intros i counts centroids st' Hn Hc H.
  - split; [constructor | done].
  - rewrite for_enumerate_cons in H. inv_bind H. destruct a as [counts1 centroids1].
    apply accumulate_Ok_inv in Ha as (Hn1 & Hc1 & Hrange & Hi).
    apply IH in H as [Hall Hlen]; [|lia..]. split.
    + constructor; [lia | done].
    + intros _. simpl. destruct clusters; [simpl; lia|]. specialize (Hlen ltac:(done)).
      simpl in *. lia.
Qed.

Lemma for_enumerate_accumulate_wrap samples (K : nat) clusters : forall i counts centroids,
  length counts = K -> length centroids = K ->
  Forall (fun c => - Z.of_nat K <= c < Z.of_nat K)%Z clusters ->
  for_enumerate (accumulate samples) i (map (wrap (Z.of_nat K)) clusters) (counts, centroids)
  = for_enumerate (accumulate samples) i clusters (counts, centroids).
Proof.
  induction clusters as [|c clusters IH]; intros i counts centroids Hn Hc Hr; [done|].
  apply Forall_cons in Hr as [Hc0 Hr]. simpl map. rewrite !for_enumerate_cons.
  assert (accumulate samples (counts, centroids) i (wrap (Z.of_nat K) c)
          = accumulate samples (counts, centroids) i c) as ->.
  { unfold accumulate. rewrite Hn, Hc, getindex_wrap by done. done. }
  destruct (accumulate samples (counts, centroids) i c) as [[counts1 centroids1]|e] eqn:Hacc;
    simpl; [|done].
  apply accumulate_Ok_inv in Hacc as (Hn1 & Hc1 & _). apply IH; [lia | lia | done].
Qed.

Lemma ndarray_max_unique l m :
  ndarray_max l = Ok m <-> m ∈ l /\ Forall (fun c => c <= m)%Z l.
Proof.
  split.
  - intros H. destruct (ndarray_max_spec l) as (m' & H' & Hle & Hin).
    { intros ->. discriminate H. }
    assert (m' = m) as -> by congruence. done.
  - intros [Hin Hle]. destruct (ndarray_max_spec l) as (m' & H' & Hle' & Hin').
    { intros ->. by apply elem_of_nil in Hin. }
    rewrite Forall_forall in Hle, Hle'.
    specialize (Hle _ Hin'). specialize (Hle' _ Hin).
    by replace m with m' by lia.
Qed.

Lemma ndarray_max_wrap l m :
  ndarray_max l = Ok m -> Forall (fun c => - (m + 1) <= c)%Z l ->
  (0 <= m)%Z /\ ndarray_max (map (wrap (m + 1)) l) = Ok m /\
  Forall (fun c => 0 <= c)%Z (map (wrap (m + 1)) l).
Proof.
  intros [Hin Hle]%ndarray_max_unique Hlow.
  rewrite Forall_forall in Hle, Hlow.
  assert (0 <= m)%Z as Hm by (specialize (Hlow _ Hin); lia).
  split; [done|]. split.
  - apply ndarray_max_unique. split.
    + apply list_elem_of_fmap. exists m. split; [|done].
      unfold wrap. by rewrite bool_decide_eq_false_2 by lia.
    + apply Forall_forall. intros c (c' & -> & Hc')%list_elem_of_fmap.
      specialize (Hle _ Hc'). specialize (Hlow _ Hc').
      unfold wrap. case_bool_decide; lia.
  - apply Forall_forall. intros c (c' & -> & Hc')%list_elem_of_fmap.
    specialize (Hlow _ Hc'). unfold wrap. case_bool_decide; lia.
Qed.

Lemma get_centroids_wrap_eq (samples : matrix) (clusters : list Z) (m : Z) :
  ndarray_max clusters = Ok m ->
  Forall (fun c => - (m + 1) <= c)%Z clusters ->
  get_centroids samples (map (wrap (m + 1)) clusters) = get_centroids samples clusters.
Proof.
  intros Hmax Hlow. destruct (ndarray_max_wrap _ _ Hmax Hlow) as (Hm & Hmax' & _).
  unfold get_centroids. rewrite Hmax, Hmax'. simpl.
  unfold np_zeros, np_zeros2. rewrite bool_decide_eq_false_2 by lia. simpl.
  destruct (getitem samples 0) as [sample0|e]; simpl; [|done].
  replace (m + 1)%Z with (Z.of_nat (Z.to_nat (m + 1))) at 1 by lia.
  rewrite (for_enumerate_accumulate_wrap samples (Z.to_nat (m + 1)));
    [done | apply length_replicate | apply length_replicate |].
  apply ndarray_max_unique in Hmax as [_ Hle].
  rewrite Forall_forall in Hle, Hlow |- *. intros c Hc.
  specialize (Hle _ Hc). specialize (Hlow _ Hc). lia.
Qed.

(** X5: a negative id counts clusters from the end, as a Python index does:
    with [K = max + 1] and every id at least [-K], the ids [c] and [c + K]
    name one cluster, and the result is that of the wrapped assignment. *)
Theorem get_centroids_wrap (samples : matrix) (clusters : list Z) (m : Z) :
  ndarray_max clusters = Ok m ->
  Forall (fun c => - (m + 1) <= c)%Z clusters ->
  get_centroids samples (map (wrap (m + 1)) clusters) = get_centroids samples clusters.
Proof. apply get_centroids_wrap_eq. Qed.

Lemma get_centroids_wrap_witness :
  get_centroids example_samples (map (wrap (1 + 1)) [0; -2; -1; 1]%Z)
  = get_centroids example_samples [0; -2; -1; 1]%Z.
Proof.
  apply (get_centroids_wrap example_samples [0; -2; -1; 1]%Z 1).
  - reflexivity.
  - repeat constructor; lia.
Defined.

Lemma get_centroids_Ok_inv (samples : matrix) (clusters : list Z) (R : matrix) :
  get_centroids samples clusters = Ok R ->
  (exists m, ndarray_max clusters = Ok m /\ Forall (fun c => - (m + 1) <= c)%Z clusters) /\
  length clusters <= length samples.
Proof.
  - intros H. unfold get_centroids in H. inv_bind H. rename a into m.
    unfold np_zeros in H. case_bool_decide; [done|]. simpl in H.
    inv_bind H. rename a into sample0. unfold np_zeros2 in H.
    rewrite bool_decide_eq_false_2 in H by done. simpl in H. inv_bind H.
    destruct a as [counts centroids]. clear H.
    apply (accumulate_loop_Ok_inv samples (Z.to_nat (m + 1))) in Ha1
      as [Hall Hlen]; [|apply length_replicate..].
    assert (clusters <> []) as Hne by (intros ->; discriminate Ha).
    split; [|specialize (Hlen Hne); lia].
    exists m. split; [done|]. eapply Forall_impl; [exact Hall|]. simpl. lia.
Qed.

(** X6: exactly when [get_centroids] returns: the assignment is non-empty (it
    has a maximum [m]), no id lies below [-(m + 1)], and there is a point for
    every id.  In every other case it raises. *)
Theorem get_centroids_Ok_iff (samples : matrix) (clusters : list Z) :
  (exists R, get_centroids samples clusters = Ok R) <->
  (exists m, ndarray_max clusters = Ok m /\ Forall (fun c => - (m + 1) <= c)%Z clusters) /\
  length clusters <= length samples.
Proof.
  split.
  - intros [R H]. by eapply get_centroids_Ok_inv.
  - intros [(m & Hmax & Hlow) Hlen]. rewrite <- (get_centroids_wrap_eq _ _ _ Hmax Hlow).
    destruct (ndarray_max_wrap _ _ Hmax Hlow) as (Hm & Hmax' & Hpos).
    destruct (get_centroids_spec samples (map (wrap (m + 1)) clusters))
      as (_ & _ & R & _ & _ & HR & _); [| done | by rewrite length_map | by exists R].
    intros Hnil. rewrite Hnil in Hmax'. discriminate Hmax'.
Qed.

Lemma get_centroids_Ok_iff_witness :
  (exists R, get_centroids example_samples [0; -2; -1; 1]%Z = Ok R) /\
  ~ (exists R, get_centroids example_samples [0; 0; 0; 0; 0]%Z = Ok R) /\
  ~ (exists R, get_centroids example_samples [-1; -1]%Z = Ok R).
Proof.
  split; [|split].
  - apply (get_centroids_Ok_iff example_samples [0; -2; -1; 1]%Z). split.
    + exists 1%Z. split; [reflexivity | repeat constructor; lia].
    + simpl. lia.
  - intros H. apply (get_centroids_Ok_iff example_samples [0; 0; 0; 0; 0]%Z) in H
      as [_ H]. simpl in H. lia.
  - intros H. apply (get_centroids_Ok_iff example_samples [-1; -1]%Z) in H
      as [(m & [= <-] & H) _]. apply Forall_cons in H as [H _]. simpl in H. lia.
Defined.

Lemma get_centroids_Ok_shape (D : nat) (samples : matrix) (clusters : list Z) (R : matrix) :
  Forall (fun s => length s = D) samples ->
  get_centroids samples clusters = Ok R ->
  R <> [] /\ Forall (fun row => length row = D) R /\
  exists m, ndarray_max clusters = Ok m /\ (0 <= m)%Z /\ length R = Z.to_nat (m + 1).
Proof.
  intros Hs HR.
  destruct (get_centroids_Ok_inv _ _ _ HR) as [(m & Hmax & Hlow) Hlen].
  destruct (ndarray_max_wrap _ _ Hmax Hlow) as (Hm & Hmax' & Hpos).
  rewrite <- (get_centroids_wrap_eq _ _ _ Hmax Hlow) in HR.
  destruct (get_centroids_spec samples (map (wrap (m + 1)) clusters))
    as (m' & sample0 & R' & Hmax'' & Hs0 & HR' & HlenR & Hrows);
    [| done | by rewrite length_map |].
  { intros Hnil. rewrite Hnil in Hmax'. discriminate Hmax'. }
  assert (m' = m) as -> by congruence. assert (R' = R) as -> by congruence.
  split; [|split].
  - intros ->. simpl in HlenR. lia.
  - apply Forall_lookup. intros j row Hj.
    rewrite Hrows in Hj by (apply lookup_lt_Some in Hj; lia).
    injection Hj as <-. rewrite Forall_forall in Hs.
    rewrite (Hs sample0) by (by eapply list_elem_of_lookup_2).
    apply length_mean, cluster_points_Forall, Forall_forall. exact Hs.
  - eauto.
Qed.

(** X7: whatever [get_centroids] returns on a point set of dimension [D] is a
    non-empty centroid set of dimension [D], with one row more than the
    largest id. *)
Theorem get_centroids_shape (D : nat) (samples : matrix) (clusters : list Z) (R : matrix) :
  Forall (fun s => length s = D) samples ->
  get_centroids samples clusters = Ok R ->
  R <> [] /\ Forall (fun row => length row = D) R /\
  exists m, ndarray_max clusters = Ok m /\ (0 <= m)%Z /\ length R = Z.to_nat (m + 1).
Proof. apply get_centroids_Ok_shape. Qed.

Lemma get_centroids_shape_witness :
  [[1; 1.5]; [nan; nan]; [9; 8.5]]%float <> [] /\
  Forall (fun row => length row = 2) [[1; 1.5]; [nan; nan]; [9; 8.5]]%float /\
  exists m, ndarray_max [0; 0; 2; 2]%Z = Ok m /\ (0 <= m)%Z /\
    length [[1; 1.5]; [nan; nan]; [9; 8.5]]%float = Z.to_nat (m + 1).
Proof.
  apply (get_centroids_shape 2 example_samples [0; 0; 2; 2]%Z).
  - repeat constructor.
  - vm_compute. reflexivity.
Defined.

Lemma cluster_points_not_in samples : forall clusters c,
  c ∉ clusters -> cluster_points samples clusters c = [].
Proof.
  induction samples as [|s samples IH]; intros clusters c Hc; [done|].
  destruct clusters as [|x clusters]; [apply cluster_points_nil_r|].
  apply not_elem_of_cons in Hc as [Hne Hc].
  rewrite cluster_points_cons, decide_False by done. by apply IH.
Qed.

Lemma mean_nil D : mean D [] = replicate D nan.
Proof. unfold mean, total, count. simpl. by rewrite fmap_replicate. Qed.

(** X8: what an empty cluster does to the next assignment.  The row of a
    cluster id [j] below the maximum that has no point is all [nan], and on a
    point set of dimension [D >= 1] the next [find_closest_centroids] gives
    no point an id above [j]. *)
Theorem get_centroids_empty_row (D : nat) (samples : matrix) (clusters ids : list Z)
    (R : matrix) (j : nat) :
  1 <= D ->
  Forall (fun s => length s = D) samples ->
  Forall (fun c => 0 <= c)%Z clusters ->
  get_centroids samples clusters = Ok R ->
  j < length R -> Z.of_nat j ∉ clusters ->
  R !! j = Some (replicate D nan) /\
  (find_closest_centroids samples R = Ok ids ->
   Forall (fun id => id <= Z.of_nat j)%Z ids).
Proof.
  intros HD Hs Hpos HR Hj Hempty.
  destruct (get_centroids_Ok_inv _ _ _ HR) as [(m & Hmax & _) Hlen].
  destruct (get_centroids_spec samples clusters)
    as (m' & sample0 & R' & Hmax' & Hs0 & HR' & HlenR & Hrows); [|done..|].
  { intros ->. discriminate Hmax. }
  assert (R' = R) as -> by congruence.
  assert (length sample0 = D) as HD0.
  { rewrite Forall_forall in Hs. apply Hs. by eapply list_elem_of_lookup_2. }
  assert (R !! j = Some (replicate D nan)) as Hrow.
  { rewrite Hrows by lia. by rewrite cluster_points_not_in, mean_nil, HD0. }
  split; [done|]. intros Hids.
  apply (find_closest_centroids_nan_rows samples R ids j (replicate D nan)); try done.
  - exists nan. split; [|done]. destruct D; [lia|]. apply list_elem_of_here.
  - eapply Forall_impl; [exact Hs|]. simpl. intros s ->. by rewrite length_replicate.
Qed.

Lemma get_centroids_empty_row_witness :
  [[1; 1.5]; [nan; nan]; [9; 8.5]]%float !! 1 = Some (replicate 2 nan) /\
  (find_closest_centroids example_samples [[1; 1.5]; [nan; nan]; [9; 8.5]]%float
     = Ok [1; 1; 1; 1]%Z ->
   Forall (fun id => id <= Z.of_nat 1)%Z [1; 1; 1; 1]%Z).
Proof.
  apply (get_centroids_empty_row 2 example_samples [0; 0; 2; 2]%Z).
  - lia.
  - repeat constructor.
  - repeat constructor; lia.
  - vm_compute. reflexivity.
  - simpl. lia.
  - by rewrite !elem_of_cons, elem_of_nil; intros [|[|[|[|]]]].
Defined.

(** ** run_k_means: the trajectory, longer runs, failures *)

Lemma iteration_lloyd_step samples st i st' :
  iteration samples st i = Ok st' ->
  lloyd_step samples (current_centroids st) (current_centroids st').
Proof. intros (_ & Hfind & Hget)%iteration_Ok. by exists (clusters st'). Qed.

(** The snapshots of a run, followed by the centroids the loop ends with,
    form a chain of rounds. *)
Lemma for_range_iteration_trajectory samples n : forall start st st',
  for_range (iteration samples) start n st = Ok st' ->
  exists rest,
    centroid_history st' = centroid_history st ++ rest /\
    (rest ++ [current_centroids st']) !! 0 = Some (current_centroids st) /\
    forall i c c',
      (rest ++ [current_centroids st']) !! i = Some c ->
      (rest ++ [current_centroids st']) !! S i = Some c' ->
      lloyd_step samples c c'.
Proof.
  induction n as [|n IH]; intros start st st' H.
  - injection H as <-. exists []. rewrite app_nil_r. split; [done|]. split; [done|].
    intros i c c' _ Hi. done.
  - rewrite for_range_S in H. inv_bind H. rename a into st1.
    pose proof (iteration_lloyd_step _ _ _ _ Ha) as Hstep.
    apply iteration_Ok in Ha as (Hh & _ & _).
    apply IH in H as (rest & Hrest & Hhead & Hchain).
    exists (current_centroids st :: rest). rewrite Hrest, Hh, <- app_assoc.
    split; [done|]. split; [done|]. intros [|i] c c' Hc Hc'; simpl in Hc, Hc'.
    + injection Hc as <-. rewrite Hhead in Hc'. by injection Hc' as <-.
    + by eapply Hchain.
Qed.

Lemma run_k_means_chain samples initial_centroids n_iter cl h :
  run_k_means samples initial_centroids n_iter = Ok (cl, h) ->
  forall i c c', h !! i = Some c -> h !! S i = Some c' -> lloyd_step samples c c'.
Proof.
  unfold run_k_means, run_k_means_loop. intros H. inv_bind H. injection H as <- <-.
  apply for_range_iteration_trajectory in Ha as (rest & Hrest & _ & Hchain).
  simpl in Hrest. rewrite Hrest. intros i c c' Hc Hc'.
  apply (Hchain i); by apply lookup_app_l_Some.
Qed.

Lemma run_k_means_last samples initial_centroids n_iter cl h :
  (1 <= n_iter)%Z ->
  run_k_means samples initial_centroids n_iter = Ok (cl, h) ->
  exists c, last h = Some c /\ find_closest_centroids samples c = Ok cl.
Proof.
  intros Hn Hrun. unfold run_k_means, run_k_means_loop in Hrun. inv_bind Hrun.
  injection Hrun as <- <-. rename a into st.
  replace (Z.to_nat n_iter) with (S (Z.to_nat (n_iter - 1))) in Ha by lia.
  rewrite for_range_snoc in Ha. inv_bind Ha. rename a into prev.
  apply iteration_Ok in Ha as (Hh & Hfind & _).
  exists (current_centroids prev). by rewrite Hh, last_snoc.
Qed.

(** X9: the history is a trajectory: every snapshot but the first is what
    [get_centroids] makes of the assignment [find_closest_centroids] gives
    for the snapshot before it. *)
Theorem run_k_means_trajectory (samples initial_centroids : matrix) (n_iter : Z)
    (cl : list Z) (h : list matrix) :
  run_k_means samples initial_centroids n_iter = Ok (cl, h) ->
  forall i c c', h !! i = Some c -> h !! S i = Some c' -> lloyd_step samples c c'.
Proof. apply run_k_means_chain. Qed.

Lemma run_k_means_trajectory_witness :
  lloyd_step example_samples example_centroids3 [[1; 1.5]; [nan; nan]; [9; 8.5]]%float.
Proof.
  apply (run_k_means_trajectory example_samples example_centroids3 2 [1; 1; 1; 1]%Z
           [example_centroids3; [[1; 1.5]; [nan; nan]; [9; 8.5]]%float]) with (i := 0).
  - vm_compute. reflexivity.
  - reflexivity.
  - reflexivity.
Defined.

Lemma run_k_means_loop_add samples initial_centroids (n m : Z) :
  (0 <= n)%Z -> (0 <= m)%Z ->
  run_k_means_loop samples initial_centroids (n + m) =
  st ← run_k_means_loop samples initial_centroids n;
  for_range (iteration samples) (Z.to_nat n) (Z.to_nat m) st.
Proof.
  intros Hn Hm. unfold run_k_means_loop. by rewrite Z2Nat.inj_add, for_range_add by lia.
Qed.

(** X10: a longer run extends a shorter one: if the run of [n + m] iterations
    returns, the run of [n] iterations returns too, and its history is the
    first [n] snapshots of the longer history. *)
Theorem run_k_means_prefix (samples initial_centroids : matrix) (n m : Z)
    (cl' : list Z) (h' : list matrix) :
  (0 <= n)%Z -> (0 <= m)%Z ->
  run_k_means samples initial_centroids (n + m) = Ok (cl', h') ->
  exists cl, run_k_means samples initial_centroids n = Ok (cl, take (Z.to_nat n) h').
Proof.
  intros Hn Hm. unfold run_k_means. rewrite run_k_means_loop_add by done.
  intros H. inv_bind H. rename a into st'. injection H as <- <-.
  inv_bind Ha. rename a into st. rewrite Ha0. simpl. exists (clusters st).
  apply for_range_iteration_history in Ha as (rest & -> & _ & _).
  unfold run_k_means_loop in Ha0.
  apply for_range_iteration_history in Ha0 as (rest0 & Hh & Hlen & _).
  simpl in Hh. subst rest0. by rewrite <- Hlen, take_app_length.
Qed.

Lemma run_k_means_prefix_witness :
  exists cl,
    run_k_means example_samples example_centroids3 1
    = Ok (cl, take (Z.to_nat 1)
                [example_centroids3; [[1; 1.5]; [nan; nan]; [9; 8.5]]%float]).
Proof.
  apply (run_k_means_prefix example_samples example_centroids3 1 1 [1; 1; 1; 1]%Z).
  - lia.
  - lia.
  - vm_compute. reflexivity.
Defined.

(** X11: an exception ends the run for good: if the run of [n] iterations
    raises [e], every longer run raises the same [e]. *)
Theorem run_k_means_raise_mono (samples initial_centroids : matrix) (n m : Z) (e : exn) :
  (0 <= m)%Z ->
  run_k_means samples initial_centroids n = Raise e ->
  run_k_means samples initial_centroids (n + m) = Raise e.
Proof.
  intros Hm. destruct (decide (n < 0)%Z) as [Hneg|Hn].
  - unfold run_k_means, run_k_means_loop.
    replace (Z.to_nat n) with 0 by lia. done.
  - unfold run_k_means. rewrite run_k_means_loop_add by lia.
    destruct (run_k_means_loop samples initial_centroids n) as [st|e']; simpl; [done|].
    by intros [= ->].
Qed.

Lemma run_k_means_raise_mono_witness :
  run_k_means [] example_centroids (1 + 5) = Raise ValueError.
Proof.
  apply (run_k_means_raise_mono [] example_centroids 1 5 ValueError); [lia | reflexivity].
Defined.

Lemma lloyd_step_length samples c c' :
  lloyd_step samples c c' -> 1 <= length c' <= length c.
Proof.
  intros (a & Hfind & Hget).
  apply find_closest_centroids_Ok_shape in Hfind as [Hlen Hrange].
  destruct (get_centroids_Ok_inv _ _ _ Hget) as [(m & Hmax & _) Hle].
  destruct (get_centroids_spec samples a)
    as (m' & sample0 & R & Hmax' & _ & HR & HlenR & _); [| |done|].
  { intros ->. discriminate Hmax. }
  { eapply Forall_impl; [exact Hrange|]. simpl. lia. }
  assert (m' = m) as -> by congruence. assert (R = c') as -> by congruence.
  apply ndarray_max_unique in Hmax as [Hin _].
  rewrite Forall_forall in Hrange. specialize (Hrange _ Hin). lia.
Qed.

(** X12: the number of centroids never grows and never reaches zero along the
    history; and after [n_iter >= 1] iterations the returned assignment has
    one id per point, each an index into the last snapshot. *)
Theorem run_k_means_shape (samples initial_centroids : matrix) (n_iter : Z)
    (cl : list Z) (h : list matrix) :
  run_k_means samples initial_centroids n_iter = Ok (cl, h) ->
  (forall i c c', h !! i = Some c -> h !! S i = Some c' ->
     1 <= length c' <= length c) /\
  ((1 <= n_iter)%Z ->
   length cl = length samples /\
   exists c, last h = Some c /\
     Forall (fun id => 0 <= id < Z.of_nat (length c))%Z cl).
Proof.
  intros Hrun. split.
  - intros i c c' Hc Hc'. apply (lloyd_step_length samples).
    unfold run_k_means, run_k_means_loop in Hrun. inv_bind Hrun.
    injection Hrun as <- <-.
    apply for_range_iteration_trajectory in Ha as (rest & Hrest & _ & Hchain).
    simpl in Hrest. rewrite Hrest in Hc, Hc'.
    apply (Hchain i); by apply lookup_app_l_Some.
  - intros Hn. unfold run_k_means, run_k_means_loop in Hrun. inv_bind Hrun.
    injection Hrun as <- <-. rename a into st.
    replace (Z.to_nat n_iter) with (S (Z.to_nat (n_iter - 1))) in Ha by lia.
    rewrite for_range_snoc in Ha. inv_bind Ha. rename a into prev.
    apply iteration_Ok in Ha as (Hh & Hfind & _).
    apply find_closest_centroids_Ok_shape in Hfind as [Hlen Hrange].
    split; [done|]. exists (current_centroids prev). split; [|done].
    by rewrite Hh, last_snoc.
Qed.

Lemma run_k_means_shape_witness :
  (forall i c c',
     [example_centroids3; [[1; 1.5]; [nan; nan]; [9; 8.5]]%float] !! i = Some c ->
     [example_centroids3; [[1; 1.5]; [nan; nan]; [9; 8.5]]%float] !! S i = Some c' ->
     1 <= length c' <= length c) /\
  ((1 <= 2)%Z ->
   length [1; 1; 1; 1]%Z = length example_samples /\
   exists c, last [example_centroids3; [[1; 1.5]; [nan; nan]; [9; 8.5]]%float] = Some c /\
     Forall (fun id => 0 <= id < Z.of_nat (length c))%Z [1; 1; 1; 1]%Z).
Proof.
  apply (run_k_means_shape example_samples example_centroids3 2).
  vm_compute. reflexivity.
Defined.

(** The first iteration on a valid input returns and leaves centroids of the
    dimension of the points. *)
Lemma iteration_first D D' samples st i :
  Forall (fun s => length s = D) samples ->
  Forall (fun c => length c = D') (current_centroids st) ->
  ~ invalid_run D D' samples (current_centroids st) ->
  exists st', iteration samples st i = Ok st' /\
    well_formed D samples (current_centroids st').
Proof.
  intros Hs Hc Hvalid.
  assert (samples <> []) as Hne by (intros ->; apply Hvalid; by left).
  destruct (proj2 (find_closest_centroids_cases D D' samples (current_centroids st) Hs Hc))
    as (ids & Hids).
  { intros [_ Hbad]. apply Hvalid. by right. }
  pose proof (find_closest_centroids_Ok_shape _ _ _ Hids) as [Hlen Hrange].
  destruct (get_centroids_spec samples ids) as (m & sample0 & R & _ & _ & HR & _).
  { intros ->. by destruct samples. }
  { eapply Forall_impl; [exact Hrange|]. simpl. lia. }
  { lia. }
  destruct (get_centroids_Ok_shape D samples ids R Hs HR) as (HRne & HRdim & _).
  exists (LoopState (centroid_history st ++ [current_centroids st]) R ids).
  split; [unfold iteration; by rewrite Hids; simpl; rewrite HR | done].
Qed.

Lemma iteration_invalid D D' samples st i :
  Forall (fun s => length s = D) samples ->
  Forall (fun c => length c = D') (current_centroids st) ->
  invalid_run D D' samples (current_centroids st) ->
  iteration samples st i = Raise ValueError.
Proof.
  intros Hs Hc Hbad. unfold iteration.
  destruct (decide (samples = [])) as [->|Hne]; [done|].
  rewrite (proj1 (find_closest_centroids_cases D D' samples (current_centroids st) Hs Hc));
    [done|].
  split; [done|]. by destruct Hbad as [? | ?].
Qed.

(** X13: a run fails in its first iteration or not at all.  For points of
    dimension [D], initial centroids of dimension [D'] and [n_iter >= 1], the
    run raises [ValueError] when there is no point, no centroid, or [D] and
    [D'] do not broadcast; in every other case it returns. *)
Theorem run_k_means_fail_fast (D D' : nat) (samples initial_centroids : matrix)
    (n_iter : Z) :
  (1 <= n_iter)%Z ->
  Forall (fun s => length s = D) samples ->
  Forall (fun c => length c = D') initial_centroids ->
  (invalid_run D D' samples initial_centroids ->
     run_k_means samples initial_centroids n_iter = Raise ValueError) /\
  (~ invalid_run D D' samples initial_centroids ->
     exists cl h, run_k_means samples initial_centroids n_iter = Ok (cl, h)).
Proof.
  intros Hn Hs Hc. unfold run_k_means, run_k_means_loop.
  replace (Z.to_nat n_iter) with (S (Z.to_nat (n_iter - 1))) by lia.
  rewrite for_range_S. split.
  - intros Hbad. by rewrite (iteration_invalid D D').
  - intros Hvalid.
    destruct (iteration_first D D' samples (LoopState [] initial_centroids []) 0)
      as (st1 & -> & Hwf); [done..|]. rewrite bind_ret.
    destruct (for_range_iteration_total D samples (Z.to_nat (n_iter - 1)) 1 st1 Hwf)
      as (st & ->). simpl. eauto.
Qed.

Lemma run_k_means_fail_fast_witness :
  run_k_means example_samples [[0; 0; 0]]%float 3 = Raise ValueError /\
  exists cl h, run_k_means example_samples [[5]]%float 3 = Ok (cl, h).
Proof.
  split.
  - apply (run_k_means_fail_fast 2 3 example_samples [[0; 0; 0]]%float 3).
    + lia.
    + repeat constructor.
    + repeat constructor.
    + right. right. lia.
  - apply (run_k_means_fail_fast 2 1 example_samples [[5]]%float 3).
    + lia.
    + repeat constructor.
    + repeat constructor.
    + intros [? | [? | ?]]; [done | done | lia].
Defined.

(** ** choose_random_centroids *)

Lemma choose_random_centroids_cases permutation samples (K : Z) :
  (forall l, length (permutation l) = length l) ->
  (samples <> [] /\ (0 <= K <= Z.of_nat (length samples))%Z ->
     choose_random_centroids permutation samples K
     = Ok (take (Z.to_nat K) (permutation samples))) /\
  (~ (samples <> [] /\ (0 <= K <= Z.of_nat (length samples))%Z) ->
     exists e, choose_random_centroids permutation samples K = Raise e).
Proof.
  intros Hperm. split.
  - intros [Hne HK]. by apply choose_random_centroids_take.
  - intros Hbad. unfold choose_random_centroids.
    destruct samples as [|sample0 samples']; [by exists IndexError|].
    rewrite (getitem_lookup _ 0 sample0), bind_ret by done. unfold np_zeros2.
    case_bool_decide; [by exists ValueError|]. rewrite bind_ret.
    exists IndexError. apply for_range_getitem_out_of_range.
    assert (~ (0 <= K <= Z.of_nat (length (sample0 :: samples')))%Z) as HK
      by (intros HK; by apply Hbad).
    rewrite Hperm. simpl in *. lia.
Qed.

(** X14: random initialisation returns exactly when there is a point and
    [0 <= K <= N]; it then returns the first [K] rows of the shuffled point
    set: [K] rows, drawn from the points without replacement. *)
Theorem choose_random_centroids_Ok_iff (permutation : matrix -> matrix)
    (samples : matrix) (K : Z) :
  (forall l, permutation l ≡ₚ l) ->
  ((exists R, choose_random_centroids permutation samples K = Ok R) <->
   samples <> [] /\ (0 <= K <= Z.of_nat (length samples))%Z) /\
  (forall R, choose_random_centroids permutation samples K = Ok R ->
     R = take (Z.to_nat K) (permutation samples) /\
     length R = Z.to_nat K /\ R ⊆+ samples).
Proof.
  intros Hperm.
  assert (forall l, length (permutation l) = length l) as Hlen
    by (intros l; apply Permutation_length, Hperm).
  destruct (choose_random_centroids_cases permutation samples K Hlen) as [Hok Hbad].
  assert ((exists R, choose_random_centroids permutation samples K = Ok R) ->
          samples <> [] /\ (0 <= K <= Z.of_nat (length samples))%Z) as Hinv.
  { intros [R HR].
    destruct (decide (samples <> [] /\ (0 <= K <= Z.of_nat (length samples))%Z))
      as [H|H]; [done|].
    destruct (Hbad H) as [e He]. congruence. }
  split; [split; [done | eauto]|].
  intros R HR. destruct Hinv as [Hne HK]; [by exists R|].
  rewrite Hok in HR by done. injection HR as <-. split; [done|]. split.
  - rewrite length_take, Hlen. lia.
  - rewrite <- (Hperm samples) at 2. apply sublist_submseteq, sublist_take.
Qed.

Lemma choose_random_centroids_Ok_iff_witness :
  ((exists R, choose_random_centroids reverse example_samples 3 = Ok R) <->
   example_samples <> [] /\ (0 <= 3 <= Z.of_nat (length example_samples))%Z) /\
  (forall R, choose_random_centroids reverse example_samples 3 = Ok R ->
     R = take (Z.to_nat 3) (reverse example_samples) /\
     length R = Z.to_nat 3 /\ R ⊆+ example_samples).
Proof.
  apply (choose_random_centroids_Ok_iff reverse example_samples 3).
  intros l. apply reverse_Permutation.
Defined.

(** X15: random initialisation composes with the run: on a point set of one
    dimension and with [1 <= K <= N], the centroids it picks make
    [run_k_means] return, for every number of iterations. *)
Theorem choose_random_centroids_run (D : nat) (permutation : matrix -> matrix)
    (samples : matrix) (K n_iter : Z) :
  (forall l, permutation l ≡ₚ l) ->
  Forall (fun s => length s = D) samples ->
  (1 <= K <= Z.of_nat (length samples))%Z ->
  exists initial_centroids cl h,
    choose_random_centroids permutation samples K = Ok initial_centroids /\
    length initial_centroids = Z.to_nat K /\
    run_k_means samples initial_centroids n_iter = Ok (cl, h).
Proof.
  intros Hperm Hs HK.
  assert (forall l, length (permutation l) = length l) as Hlen
    by (intros l; apply Permutation_length, Hperm).
  assert (samples <> []) as Hne by (intros ->; simpl in HK; lia).
  exists (take (Z.to_nat K) (permutation samples)).
  assert (length (take (Z.to_nat K) (permutation samples)) = Z.to_nat K) as HlenK
    by (rewrite length_take, Hlen; lia).
  assert (well_formed D samples (take (Z.to_nat K) (permutation samples))) as Hwf.
  { split; [done|]. split; [done|]. split.
    - intros Hnil. rewrite Hnil in HlenK. simpl in HlenK. lia.
    - apply Forall_take. by rewrite (Hperm samples). }
  unfold run_k_means, run_k_means_loop.
  destruct (for_range_iteration_total D samples (Z.to_nat n_iter) 0
              (LoopState [] (take (Z.to_nat K) (permutation samples)) []) Hwf)
    as (st & ->).
  exists (clusters st), (centroid_history st).
  split; [apply choose_random_centroids_take; try done; lia | done].
Qed.

Lemma choose_random_centroids_run_witness :
  exists initial_centroids cl h,
    choose_random_centroids reverse example_samples 3 = Ok initial_centroids /\
    length initial_centroids = Z.to_nat 3 /\
    run_k_means example_samples initial_centroids 10 = Ok (cl, h).
Proof.
  apply (choose_random_centroids_run 2 reverse example_samples 3 10).
  - intros l. apply reverse_Permutation.
  - repeat constructor.
  - simpl. lia.
Defined.

(** ** run_k_means: convergence seen in the history *)

Lemma lloyd_step_functional samples c c1 c2 :
  lloyd_step samples c c1 -> lloyd_step samples c c2 -> c1 = c2.
Proof. intros (a1 & Ha1 & Hc1) (a2 & Ha2 & Hc2). congruence. Qed.

(** X16: centroids that have stopped moving stay where they are: if two
    consecutive snapshots of the history are equal, every later snapshot is
    equal to them, and the returned assignment is the one
    [find_closest_centroids] gives for them. *)
Theorem run_k_means_converged (samples initial_centroids : matrix) (n_iter : Z)
    (cl : list Z) (h : list matrix) (i : nat) (c : matrix) :
  run_k_means samples initial_centroids n_iter = Ok (cl, h) ->
  h !! i = Some c -> h !! S i = Some c ->
  (forall j, i <= j < length h -> h !! j = Some c) /\
  find_closest_centroids samples c = Ok cl.
Proof.
  intros Hrun Hi HSi.
  pose proof (run_k_means_chain _ _ _ _ _ Hrun) as Hchain.
  assert (forall j, i <= j < length h -> h !! j = Some c) as Hall.
  { intros j [Hij Hj]. induction j as [|j IH].
    - by replace i with 0 in Hi by lia.
    - destruct (decide (i = S j)) as [->|Hne]; [done|].
      specialize (IH ltac:(lia) ltac:(lia)).
      destruct (lookup_lt_is_Some_2 h (S j) Hj) as [c' Hc'].
      rewrite Hc'. f_equal.
      apply (lloyd_step_functional samples c); [by apply (Hchain j) | by apply (Hchain i)]. }
  split; [done|].
  assert (1 <= n_iter)%Z as Hn.
  { destruct (decide (1 <= n_iter)%Z) as [|Hneg]; [done|].
    unfold run_k_means, run_k_means_loop in Hrun.
    replace (Z.to_nat n_iter) with 0 in Hrun by lia. by injection Hrun as <- <-. }
  destruct (run_k_means_last _ _ _ _ _ Hn Hrun) as (c' & Hlast & Hfind).
  rewrite last_lookup in Hlast. apply lookup_lt_Some in HSi.
  rewrite Hall in Hlast by lia. by injection Hlast as <-.
Qed.

Lemma run_k_means_converged_witness :
  (forall j, 1 <= j < length [example_centroids; [[1; 1.5]; [9; 8.5]]%float;
                              [[1; 1.5]; [9; 8.5]]%float] ->
     [example_centroids; [[1; 1.5]; [9; 8.5]]%float; [[1; 1.5]; [9; 8.5]]%float] !! j
     = Some [[1; 1.5]; [9; 8.5]]%float) /\
  find_closest_centroids example_samples [[1; 1.5]; [9; 8.5]]%float = Ok [0; 0; 1; 1]%Z.
Proof.
  apply (run_k_means_converged example_samples example_centroids 3).
  - vm_compute. reflexivity.
  - reflexivity.
  - reflexivity.
Defined.
